(** * AIMovie: the stores, the enrichment pipeline and the session script

    A shallow embedding of [main.py].  The script is one Streamlit page: it
    keeps two SQLite tables ([users], [watchlist]), calls three remote
    services (TMDB, SerpAPI, an Anthropic model served through Bedrock) and
    is re-executed from the top on every interaction with the page.

    Conventions of the embedding:
    - a Python [str] is the list of its Unicode code points;
    - the [users] table is a finite map over its primary key, the
      [watchlist] table is the list of its rows as they were inserted,
      [INSERT] checks the composite primary key itself, and a [SELECT] by
      [username] answers from the index of that key, by title;
    - [st.session_state] is kept in two parts, as Streamlit keeps it: a
      finite map from the keys the script writes to the values it stores
      there, and the keys under which Streamlit itself holds the value of
      a button drawn with [key=]; where the script reads a key it finds
      its own value or else the button's.  The checks Streamlit makes when
      a script value and a widget share a key within one run are not
      modelled;
    - everything outside the script ([hashlib], the three service clients)
      is an operation of the class [Externals]; a remote call may answer
      differently every time, so its answer is a function of the calls made
      so far, and [None] stands for any exception the client raises. *)

From stdpp Require Import gmap strings list.
From Stdlib Require Import NArith Ascii String.

Local Open Scope N_scope.

(** ** Python strings *)

Module PyStr.

Abbreviation char := N (only parsing).
Abbreviation pystr := (list N) (only parsing).

(** An ASCII literal of the script. *)
Definition lit (s : string) : pystr :=
  (λ a, N_of_ascii a) <$> list_ascii_of_string s.

Definition comma : char := 44.

(** [str.isspace] on one code point: the table CPython's [strip] uses. *)
Definition isspace (c : char) : bool :=
  ((9 <=? c) && (c <=? 13)) || ((28 <=? c) && (c <=? 32))
  || (c =? 133) || (c =? 160) || (c =? 5760)
  || ((8192 <=? c) && (c <=? 8202))
  || (c =? 8232) || (c =? 8233) || (c =? 8239) || (c =? 8287)
  || (c =? 12288).

Fixpoint lstrip (s : pystr) : pystr :=
  match s with
  | c :: s' => if isspace c then lstrip s' else s
  | [] => []
  end.

Definition rstrip (s : pystr) : pystr := reverse (lstrip (reverse s)).

(** [s.strip()] *)
Definition strip (s : pystr) : pystr := rstrip (lstrip s).

(** [s.split(sep)] for a one-character separator: one piece more than
    there are separators, so never the empty list. *)
Fixpoint split (sep : char) (s : pystr) : list pystr :=
  match s with
  | [] => [[]]
  | c :: s' =>
      if c =? sep then [] :: split sep s'
      else match split sep s' with
           | piece :: pieces => (c :: piece) :: pieces
           | [] => [[c]]
           end
  end.

(** [sep.join(l)] *)
Fixpoint join (sep : pystr) (l : list pystr) : pystr :=
  match l with
  | [] => []
  | [x] => x
  | x :: xs => x ++ sep ++ join sep xs
  end.

(** [needle in hay] *)
Definition contains (needle hay : pystr) : Prop :=
  ∃ before after, hay = before ++ needle ++ after.

(** The parsing of every model reply: [[t.strip() for t in r.split(',')]]. *)
Definition split_and_trim (r : pystr) : list pystr :=
  strip <$> split comma r.

End PyStr.

Import PyStr.

(** ** The two tables *)

(** A row of [watchlist]; [PRIMARY KEY (username, title)]. *)
Module Row.
Record t := mk {
  username : pystr;
  title : pystr;
  rating : pystr;
  summary : pystr;
  available_on : pystr;
  added_on : N
}.
Definition key (r : t) : pystr * pystr := (username r, title r).
End Row.

(** What one statement does to a table: the new table, or
    [sqlite3.IntegrityError] when the primary key is taken. *)
Inductive sql_result (T : Type) :=
| Done (table : T)
| IntegrityError.
Arguments Done {T} table.
Arguments IntegrityError {T}.

Module Sql.

(** [INSERT INTO users (username, password_hash) VALUES (?, ?)] *)
Definition insert_user (username password_hash : pystr)
    (users : gmap pystr pystr) : sql_result (gmap pystr pystr) :=
  match users !! username with
  | Some _ => IntegrityError
  | None => Done (<[username := password_hash]> users)
  end.

(** [SELECT password_hash FROM users WHERE username = ?], [.fetchone()] *)
Definition select_password_hash (username : pystr)
    (users : gmap pystr pystr) : option pystr :=
  users !! username.

Definition has_key (username title : pystr) (r : Row.t) : bool :=
  bool_decide (Row.key r = (username, title)).

Definition owned_by (username : pystr) (r : Row.t) : bool :=
  bool_decide (Row.username r = username).

(** [INSERT INTO watchlist (username, title, rating, summary, available_on)
    VALUES (?, ?, ?, ?, ?)]; [added_on] takes its default, the current
    time of the store. *)
Definition insert_watchlist (now : N)
    (username title rating summary available_on : pystr)
    (watchlist : list Row.t) : sql_result (list Row.t) :=
  if existsb (has_key username title) watchlist then IntegrityError
  else Done (watchlist ++
               [Row.mk username title rating summary available_on now]).

(** [SELECT 1 FROM watchlist WHERE username = ? AND title = ?] *)
Definition select_one (username title : pystr)
    (watchlist : list Row.t) : option N :=
  match List.filter (has_key username title) watchlist with
  | _ :: _ => Some 1
  | [] => None
  end.

(** Titles as the index of the primary key compares them: code point by
    code point, a prefix before what it begins. *)
Fixpoint title_le (a b : pystr) : bool :=
  match a, b with
  | [], _ => true
  | _ :: _, [] => false
  | x :: a', y :: b' => (x <? y) || ((x =? y) && title_le a' b')
  end.

Fixpoint index_insert (r : Row.t) (rows : list Row.t) : list Row.t :=
  match rows with
  | [] => [r]
  | x :: rows' =>
      if title_le (Row.title r) (Row.title x) then r :: x :: rows'
      else x :: index_insert r rows'
  end.

(** Rows of one user in the order of the index: by title, and rows with
    the same title in the order of the table. *)
Definition index_order (rows : list Row.t) : list Row.t :=
  foldr index_insert [] rows.

(** [SELECT ... FROM watchlist WHERE username = ?], [.fetchall()].  SQLite
    answers it from the index of the primary key, so the rows of the user
    come sorted by title. *)
Definition select_rows (username : pystr)
    (watchlist : list Row.t) : list Row.t :=
  index_order (List.filter (owned_by username) watchlist).

(** [DELETE FROM watchlist WHERE username = ? AND title = ?] *)
Definition delete_row (username title : pystr)
    (watchlist : list Row.t) : list Row.t :=
  List.filter (λ r, negb (has_key username title r)) watchlist.

(** [DELETE FROM watchlist WHERE username = ?] *)
Definition delete_rows (username : pystr)
    (watchlist : list Row.t) : list Row.t :=
  List.filter (λ r, negb (owned_by username r)) watchlist.

(** The constraint the table declares: no two rows share a key. *)
Definition primary_key (watchlist : list Row.t) : Prop :=
  NoDup (Row.key <$> watchlist).

End Sql.

(** ** The world outside the script *)

Module Tmdb.
(** The fields of [tmdb.Movies(id).info()] the script reads with [.get]:
    [None] is a key that is missing.  [vote_average] is the number as
    [str] prints it; [poster_path] is also [None] when TMDB sends null. *)
Record details := mk {
  title : option pystr;
  overview : option pystr;
  vote_average : option pystr;
  poster_path : option pystr;
  genres : option (list pystr)
}.
End Tmdb.

(** A request sent to one of the three services. *)
Inductive call :=
| TmdbSearch (query : pystr)
| TmdbInfo (movie_id : N)
| TmdbSimilar (movie_id : N)
| SerpSearch (query : pystr) (num : N)
| InvokeModel (max_tokens temperature : N) (prompt : pystr).

Class Externals := {
  (** [hashlib.sha256(s.encode()).hexdigest()] *)
  sha256_hexdigest : pystr → pystr;
  (** the [id]s of [response['results']] *)
  tmdb_search_movie : list call → pystr → option (list N);
  tmdb_movie_info : list call → N → option Tmdb.details;
  (** the [title]s of [similar_movies()['results']] *)
  tmdb_similar_movies : list call → N → option (list pystr);
  (** [results.get("organic_results", [])], each result with its
      ["snippet"] when it has one *)
  serpapi_organic_results : list call → pystr → option (list (option pystr));
  (** [result["content"][0]["text"]] of the reply to a prompt *)
  bedrock_invoke_model : list call → pystr → option pystr
}.

(** ** Values of the session and state of a run *)

Module Info.
(** The dict [get_movie_info] returns. *)
Record t := mk {
  title : pystr;
  summary : pystr;
  rating : pystr;
  poster_url : option pystr;
  genres : list pystr;
  similar_titles : list pystr;
  available_on : list pystr
}.
End Info.

Inductive value :=
| VNone
| VBool (b : bool)
| VStr (s : pystr)
| VInfo (i : Info.t)
| VList (l : list pystr).

(** Python's truth test. *)
Definition truthy (v : value) : bool :=
  match v with
  | VNone => false
  | VBool b => b
  | VStr s => negb (bool_decide (s = []))
  | VInfo _ => true
  | VList l => negb (bool_decide (l = []))
  end.

(** The boxes the page shows with [st.success], [st.warning], [st.error]
    and [st.info]. *)
Inductive message :=
| StSuccess (text : string)
| StWarning (text : string)
| StError (text : string)
| StInfo (text : string).

(** [session_state] holds what the statements of the script store in
    [st.session_state]; [widget_keys] are the keys under which Streamlit
    holds the value of a button drawn with [key=], and
    [widget_ids_this_run] those of the buttons drawn in the current run. *)
Record world := World {
  users : gmap pystr pystr;
  watchlist : list Row.t;
  session_state : gmap string value;
  calls : list call;
  page : list message;
  widget_keys : list pystr;
  widget_ids_this_run : list pystr
}.

Definition set_users (u : gmap pystr pystr) (w : world) : world :=
  World u (watchlist w) (session_state w) (calls w) (page w)
        (widget_keys w) (widget_ids_this_run w).
Definition set_watchlist (t : list Row.t) (w : world) : world :=
  World (users w) t (session_state w) (calls w) (page w)
        (widget_keys w) (widget_ids_this_run w).
Definition set_session_state (s : gmap string value) (w : world) : world :=
  World (users w) (watchlist w) s (calls w) (page w)
        (widget_keys w) (widget_ids_this_run w).
Definition set_calls (c : list call) (w : world) : world :=
  World (users w) (watchlist w) (session_state w) c (page w)
        (widget_keys w) (widget_ids_this_run w).
Definition set_page (p : list message) (w : world) : world :=
  World (users w) (watchlist w) (session_state w) (calls w) p
        (widget_keys w) (widget_ids_this_run w).
Definition set_widget_keys (k : list pystr) (w : world) : world :=
  World (users w) (watchlist w) (session_state w) (calls w) (page w)
        k (widget_ids_this_run w).
Definition set_widget_ids_this_run (k : list pystr) (w : world) : world :=
  World (users w) (watchlist w) (session_state w) (calls w) (page w)
        (widget_keys w) k.

(** What ends a run early.  [ClientError] is whatever a service client
    raises; nothing in the script catches it. *)
Inductive exn :=
| ClientError
| RerunException
| StopException
| AttributeError
| TypeError.

Inductive outcome (A : Type) :=
| Returns (a : A)
| Raises (e : exn).
Arguments Returns {A} a.
Arguments Raises {A} e.

(** Script code: it reads and writes the world and returns or raises. *)
Definition M (A : Type) : Type := world → outcome A * world.

#[global] Instance M_ret : MRet M := λ A a w, (Returns a, w).
#[global] Instance M_bind : MBind M := λ A B f m w,
  match m w with
  | (Returns a, w') => f a w'
  | (Raises e, w') => (Raises e, w')
  end.

Definition raise {A} (e : exn) : M A := λ w, (Raises e, w).
Definition get_world : M world := λ w, (Returns w, w).
Definition modify (f : world → world) : M unit := λ w, (Returns tt, f w).

(** One request: it is recorded, and answered from the calls before it. *)
Definition request {A} (c : call) (answer : list call → option A) : M A :=
  λ w,
    let w' := set_calls (calls w ++ [c]) w in
    match answer (calls w) with
    | Some a => (Returns a, w')
    | None => (Raises ClientError, w')
    end.

Definition show (m : message) : M unit :=
  modify (λ w, set_page (page w ++ [m]) w).

(** [st.session_state], for the values the script stores.  The script
    stores [authenticated] and [current_user] before it draws any button
    and never pops them, so under these two keys it only ever finds its
    own values; the three other keys are read with [view] below. *)
Module Session.
(** The script's own value under [k]. *)
Definition get (k : string) : M (option value) :=
  λ w, (Returns (session_state w !! k), w).
(** [st.session_state[k] = v], [st.session_state.k = v] *)
Definition set (k : string) (v : value) : M unit :=
  modify (λ w, set_session_state (<[k := v]> (session_state w)) w).
(** [st.session_state.pop(k, None)]: the key goes, with the script's value
    and with the value of a button that was drawn under it. *)
Definition pop (k : string) : M unit :=
  modify (λ w,
    set_widget_keys
      (List.filter (λ t, negb (bool_decide (t = lit k))) (widget_keys w))
      (set_session_state (delete k (session_state w)) w)).
(** [st.session_state.k] *)
Definition attr (k : string) : M value :=
  v ← get k;
  match v with
  | Some v => mret v
  | None => raise AttributeError
  end.
(** [if k not in st.session_state: st.session_state.k = v] *)
Definition init (k : string) (v : value) : M unit :=
  old ← get k;
  match old with
  | Some _ => mret tt
  | None => set k v
  end.
End Session.

(** [st.session_state.current_user] where a statement binds it: the script
    stores nothing but a [str] under this key. *)
Definition current_user : M pystr :=
  v ← Session.attr "current_user";
  match v with
  | VStr s => mret s
  | _ => raise TypeError
  end.

Section Script.
Context `{Externals}.

(** ** Auth *)

Definition hash_password (password : pystr) : pystr :=
  sha256_hexdigest password.

Definition signup_user (username password : pystr) : M bool :=
  w ← get_world;
  match Sql.insert_user username (hash_password password) (users w) with
  | Done users' => modify (set_users users');; mret true
  | IntegrityError => mret false
  end.

(** [return result and result[0] == hash_password(password)]: without a
    row the value of [result], which is [None], is what comes back. *)
Definition login_user (username password : pystr) : M value :=
  w ← get_world;
  match Sql.select_password_hash username (users w) with
  | None => mret VNone
  | Some stored => mret (VBool (bool_decide (stored = hash_password password)))
  end.

(** ** Claude helpers *)

Definition nl : pystr := [10].

Definition ask_claude (prompt : pystr) : M pystr :=
  text ← request (InvokeModel 300 0 prompt)
                 (λ before, bedrock_invoke_model before prompt);
  mret (strip text).

Definition streaming_prompt (snippets title : pystr) : pystr :=
  lit "Based on these web search snippets, where can I stream or watch the movie or tv show '"
  ++ title ++ lit "'?" ++ nl ++ nl
  ++ snippets ++ nl ++ nl
  ++ lit "List only the streaming platforms or services. If unknown, say 'Not found'.".

Definition ask_claude_for_streaming_info (snippets title : pystr) : M pystr :=
  ask_claude (streaming_prompt snippets title).

Definition genre_prompt_text (genre_prompt : pystr) : pystr :=
  lit "List 5 great movies in the genre or theme: '" ++ genre_prompt
  ++ lit "'. "
  ++ lit "Return only the movie titles, comma-separated.".

Definition ask_claude_for_genre_recs (genre_prompt : pystr)
    : M (list pystr) :=
  result ← ask_claude (genre_prompt_text genre_prompt);
  mret (strip <$> split comma result).

Definition personal_prompt (title_list : pystr) : pystr :=
  lit "The user has saved these movies to their watchlist: " ++ title_list
  ++ lit ". "
  ++ lit "Based on their taste, recommend 5 more movies. Return only the movie titles, comma-separated.".

Definition get_claude_personal_recommendations (username : pystr)
    : M (list pystr) :=
  w ← get_world;
  let titles := Row.title <$> Sql.select_rows username (watchlist w) in
  match titles with
  | [] => mret []
  | _ :: _ =>
      let title_list := join (lit ", ") titles in
      result ← ask_claude (personal_prompt title_list);
      mret (strip <$> split comma result)
  end.

(** ** SerpAPI *)

Definition no_results : pystr := lit "No useful search results found.".

Definition search_snippets_from_serpapi (query : pystr) : M pystr :=
  results ← request (SerpSearch query 5)
                    (λ before, serpapi_organic_results before query);
  let snippets := omap id results in
  match join nl snippets with
  | [] => mret no_results
  | c :: text => mret (c :: text)
  end.

Definition get_streaming_info (title : pystr) : M (list pystr) :=
  snippets ← search_snippets_from_serpapi
               (lit "Where can I watch " ++ title ++ lit " streaming");
  reply ← ask_claude_for_streaming_info snippets title;
  mret (strip <$> split comma reply).

(** ** TMDB info *)

Definition is_in_watchlist (username title : pystr) : M bool :=
  w ← get_world;
  match Sql.select_one username title (watchlist w) with
  | Some _ => mret true
  | None => mret false
  end.

Definition poster_url_of (poster_path : option pystr) : option pystr :=
  match poster_path with
  | Some (c :: path) => Some (lit "https://image.tmdb.org/t/p/w500" ++ c :: path)
  | _ => None
  end.

Definition get_movie_info (title : pystr) : M (option Info.t) :=
  results ← request (TmdbSearch title)
                    (λ before, tmdb_search_movie before title);
  match results with
  | [] => mret None
  | movie_id :: _ =>
      details ← request (TmdbInfo movie_id)
                        (λ before, tmdb_movie_info before movie_id);
      similar ← request (TmdbSimilar movie_id)
                        (λ before, tmdb_similar_movies before movie_id);
      available ← get_streaming_info title;
      mret (Some (Info.mk
        (default title (Tmdb.title details))
        (default (lit "No summary available.") (Tmdb.overview details))
        (default (lit "N/A") (Tmdb.vote_average details))
        (poster_url_of (Tmdb.poster_path details))
        (default [] (Tmdb.genres details))
        (take 5 similar)
        available))
  end.

(** ** The page *)

Inductive button :=
| LoginButton
| SignUpButton
| SearchButton
| GetRecsButton
| AddButton
| RemoveButton (key : pystr)
| ClearButton
| PersonalRecsButton
| LogoutButton.

Inductive login_mode := LoginMode | SignUpMode.
Inductive page_mode := SearchByTitle | GenreHelp.

(** What the widgets return during one run.  Streamlit reports at most one
    button as clicked in a run; the script is modelled for any answer of
    [clicked], which covers that. [now] is the store's clock. *)
Record widgets := Widgets {
  radio_mode : login_mode;
  username_input : pystr;
  password_input : pystr;
  selectbox_mode : page_mode;
  title_input : pystr;
  genre_input : pystr;
  clicked : button → bool;
  now : N
}.

Definition st_rerun : M unit := raise RerunException.
Definition st_stop : M unit := raise StopException.

Definition when (b : bool) (body : M unit) : M unit :=
  if b then body else mret tt.

(** What the script finds under [k] in [st.session_state]: the value it
    stored there or, when it stored none, the value of the button drawn
    with [key=k], which is whether that button is clicked in this run.
    [None] when [k] is no key of [st.session_state]. *)
Definition session_lookup (ui : widgets) (k : string) (w : world)
    : option value :=
  match session_state w !! k with
  | Some v => Some v
  | None =>
      if bool_decide (lit k ∈ widget_keys w)
      then Some (VBool (clicked ui (RemoveButton (lit k))))
      else None
  end.

(** [k in st.session_state] together with [st.session_state[k]], and
    [st.session_state.get(k)]. *)
Definition view (ui : widgets) (k : string) : M (option value) :=
  λ w, (Returns (session_lookup ui k w), w).

(** [st.button(label, key=k)]: from now on [k] is a key of
    [st.session_state], where Streamlit holds the value of the button; a
    value the script stored under [k] stays.  The answer is that of
    [clicked], which also stands for what Streamlit answers when the
    script's value is in the way. *)
Definition register_widget (k : pystr) (w : world) : world :=
  set_widget_ids_this_run (k :: widget_ids_this_run w)
    (set_widget_keys
       (if bool_decide (k ∈ widget_keys w) then widget_keys w
        else k :: widget_keys w) w).

Definition st_button_key (ui : widgets) (k : pystr) : M bool :=
  modify (register_widget k);;
  mret (clicked ui (RemoveButton k)).

(** [for t in v: st.markdown(...)]: a list, a [str] and a dict can be
    iterated, [None] and a bool cannot. *)
Definition iterate (v : value) : M unit :=
  match v with
  | VNone | VBool _ => raise TypeError
  | VStr _ | VInfo _ | VList _ => mret tt
  end.

(** Lines 68-90. *)
Definition login_ui (ui : widgets) : M unit :=
  match radio_mode ui with
  | LoginMode =>
      when (clicked ui LoginButton) (
        ok ← login_user (username_input ui) (password_input ui);
        if truthy ok then
          Session.set "authenticated" (VBool true);;
          Session.set "current_user" (VStr (username_input ui));;
          show (StSuccess "Login successful!");;
          st_rerun
        else show (StError "Invalid credentials."))
  | SignUpMode =>
      when (clicked ui SignUpButton) (
        ok ← signup_user (username_input ui) (password_input ui);
        if (ok : bool) then show (StSuccess "Account created! Please log in.")
        else show (StWarning "Username already exists."))
  end;;
  st_stop.

Definition value_of_info (info : option Info.t) : value :=
  match info with
  | Some i => VInfo i
  | None => VNone
  end.

(** Lines 187-203. *)
Definition search_ui (ui : widgets) : M unit :=
  match selectbox_mode ui with
  | SearchByTitle =>
      when (clicked ui SearchButton && truthy (VStr (title_input ui))) (
        info ← get_movie_info (title_input ui);
        Session.set "movie_info" (value_of_info info);;
        Session.pop "claude_recs";;
        Session.pop "personal_recs")
  | GenreHelp =>
      when (clicked ui GetRecsButton && truthy (VStr (genre_input ui))) (
        titles ← ask_claude_for_genre_recs (genre_input ui);
        Session.set "claude_recs" (VList titles);;
        Session.pop "movie_info";;
        Session.pop "personal_recs")
  end.

(** Lines 226-241, the body of the Add to Watchlist button. *)
Definition add_to_watchlist (now : N) (info : Info.t) : M unit :=
  user ← current_user;
  w ← get_world;
  match Sql.insert_watchlist now user (Info.title info) (Info.rating info)
          (Info.summary info) (join (lit ", ") (Info.available_on info))
          (watchlist w) with
  | Done rows =>
      modify (set_watchlist rows);;
      show (StSuccess "Added to watchlist!")
  | IntegrityError => show (StWarning "Already in your watchlist.")
  end.

(** Lines 206-209. *)
Definition claude_recs_ui (ui : widgets) : M unit :=
  recs ← view ui "claude_recs";
  match recs, selectbox_mode ui with
  | Some v, GenreHelp => iterate v
  | _, _ => mret tt
  end.

(** Lines 212-241. *)
Definition movie_info_ui (ui : widgets) : M unit :=
  info ← view ui "movie_info";
  match info with
  | Some (VInfo i) => when (clicked ui AddButton) (add_to_watchlist (now ui) i)
  | Some v => when (truthy v) (raise TypeError)
  | None => mret tt
  end.

(** Lines 258-261, the body of a Remove button. *)
Definition remove_from_watchlist (title : pystr) : M unit :=
  user ← current_user;
  modify (λ w, set_watchlist (Sql.delete_row user title (watchlist w)) w).

(** Lines 265-268, the body of the Clear Watchlist button. *)
Definition clear_watchlist : M unit :=
  user ← current_user;
  modify (λ w, set_watchlist (Sql.delete_rows user (watchlist w)) w).

(** Lines 253-262.  Each Remove button is drawn with [key=title], which
    makes the title a key of [st.session_state]. *)
Fixpoint remove_buttons (ui : widgets) (rows : list Row.t) : M unit :=
  match rows with
  | [] => mret tt
  | r :: rows' =>
      pressed ← st_button_key ui (Row.title r);
      when pressed (
        remove_from_watchlist (Row.title r);;
        st_rerun);;
      remove_buttons ui rows'
  end.

(** Lines 272-276, the body of the Get Personalized Recs button. *)
Definition personal_recs_handler : M unit :=
  user ← current_user;
  titles ← get_claude_personal_recommendations user;
  Session.set "personal_recs" (VList titles);;
  Session.pop "movie_info";;
  Session.pop "claude_recs";;
  st_rerun.

(** Lines 244-276. *)
Definition sidebar_ui (ui : widgets) : M unit :=
  user ← current_user;
  w ← get_world;
  let rows := Sql.select_rows user (watchlist w) in
  when (bool_decide (rows = [])) (show (StInfo "Your watchlist is empty."));;
  remove_buttons ui rows;;
  when (clicked ui ClearButton) (clear_watchlist;; st_rerun);;
  when (clicked ui PersonalRecsButton) personal_recs_handler.

(** Lines 279-282. *)
Definition personal_recs_ui (ui : widgets) : M unit :=
  recs ← view ui "personal_recs";
  match recs with
  | Some v => iterate v
  | None => mret tt
  end.

(** Lines 285-291. *)
Definition logout_ui (ui : widgets) : M unit :=
  when (clicked ui LogoutButton) (
    Session.set "authenticated" (VBool false);;
    Session.set "current_user" (VStr []);;
    Session.pop "movie_info";;
    Session.pop "claude_recs";;
    Session.pop "personal_recs";;
    st_rerun).

(** The script, top to bottom.  What only draws (titles, text, images,
    the lines of the two lists of recommendations) changes nothing and is
    left out. *)
Definition main (ui : widgets) : M unit :=
  Session.init "authenticated" (VBool false);;
  Session.init "current_user" (VStr []);;
  authenticated ← Session.attr "authenticated";
  if negb (truthy authenticated) then login_ui ui
  else
    search_ui ui;;
    claude_recs_ui ui;;
    movie_info_ui ui;;
    sidebar_ui ui;;
    personal_recs_ui ui;;
    logout_ui ui.

(** What Streamlit does when a run is over: after a run that came to its
    end, stopped or asked for a rerun, it forgets the buttons that were
    not drawn in it; after a run that failed it keeps them all. *)
Definition on_script_finished (o : outcome unit) (w : world) : world :=
  let kept :=
    match o with
    | Raises ClientError | Raises AttributeError | Raises TypeError =>
        widget_keys w
    | _ =>
        List.filter (λ k, bool_decide (k ∈ widget_ids_this_run w))
                    (widget_keys w)
    end in
  set_widget_ids_this_run [] (set_widget_keys kept w).

(** One run of the script on a fresh page. *)
Definition run (ui : widgets) (w : world) : world :=
  let r := main ui (set_page [] w) in on_script_finished r.1 r.2.

(** An interaction, or a rerun the script asked for, runs it again. *)
Inductive step : world → world → Prop :=
| step_run ui w : step w (run ui w).

(** The three views of the session, and those the script has stored a
    value for. *)
Definition views : list string := ["movie_info"; "claude_recs"; "personal_recs"]%string.

Definition live (w : world) : list string :=
  List.filter (λ k, bool_decide (is_Some (session_state w !! k))) views.

Definition at_most_one_live (w : world) : Prop :=
  (List.length (live w) ≤ 1)%nat.

End Script.

(** ** Vocabulary of the statements *)

(** The world once one more request went out. *)
Definition after (c : call) (w : world) : world :=
  set_calls (calls w ++ [c]) w.

(** The text [search_snippets_from_serpapi] makes of the results. *)
Definition snippets_text (results : list (option (list N))) : list N :=
  match join nl (omap id results) with
  | [] => no_results
  | c :: text => c :: text
  end.

(** Script code that leaves one field of the world as it finds it. *)
Definition leaves {X A} (field : world → X) (m : M A) : Prop :=
  ∀ w, field (m w).2 = field w.

(** Script code that keeps at most one view stored, and script code after
    which at most one is, whatever was before. *)
Definition keeps_views {A} (m : M A) : Prop :=
  ∀ w, at_most_one_live w → at_most_one_live (m w).2.

Definition ends_with_one_view {A} (m : M A) : Prop :=
  ∀ w, at_most_one_live (m w).2.

(** Script code that keeps the primary key of [watchlist]. *)
Definition keeps_primary_key {A} (m : M A) : Prop :=
  ∀ w, Sql.primary_key (watchlist w) → Sql.primary_key (watchlist (m w).2).

(** How many commas a text has. *)
Definition commas (s : list N) : nat :=
  List.length (List.filter (λ c, c =? comma) s).

(** A text with no white space at either end. *)
Definition trimmed (s : list N) : Prop :=
  (∀ c, head s = Some c → isspace c = false) ∧
  (∀ c, last s = Some c → isspace c = false).

(** The world once the script made sure of its two session keys
    (lines 62-65). *)
Definition initialised (w : world) : world :=
  (Session.init "current_user" (VStr [])
     (Session.init "authenticated" (VBool false) w).2).2.

(** The page behind the login (lines 180-291). *)
Definition main_page `{Externals} (ui : widgets) : M unit :=
  search_ui ui;; claude_recs_ui ui;; movie_info_ui ui;; sidebar_ui ui;;
  personal_recs_ui ui;; logout_ui ui.

(** [k in st.session_state]: the script stored a value under [k], or a
    button was drawn with [key=k]. *)
Definition in_session_state (k : string) (w : world) : Prop :=
  is_Some (session_state w !! k) ∨ lit k ∈ widget_keys w.

(** The world once the Remove buttons of [rows] are drawn. *)
Definition buttons_drawn (rows : list Row.t) (w : world) : world :=
  foldl (λ w r, register_widget (Row.title r) w) w rows.

(** Nobody is logged in: [authenticated] is missing or tests false. *)
Definition logged_out (w : world) : Prop :=
  ∀ a, session_state w !! "authenticated"%string = Some a → truthy a = false.

(** [u] is logged in. *)
Definition logged_in (u : list N) (w : world) : Prop :=
  session_state w !! "authenticated"%string = Some (VBool true) ∧
  session_state w !! "current_user"%string = Some (VStr u).

(** Script code that keeps a property of the world. *)
Definition preserves {A} (I : world → Prop) (m : M A) : Prop :=
  ∀ w, I w → I (m w).2.

(** The fixed settings of a request: the model is asked with
    [max_tokens] 300 and [temperature] 0, the web search for 5 results. *)
Definition well_formed_call (c : call) : Prop :=
  match c with
  | InvokeModel max_tokens temperature _ => max_tokens = 300 ∧ temperature = 0
  | SerpSearch _ num => num = 5
  | _ => True
  end.

(** Who is logged in, and the credentials. *)
Definition login_state (w : world)
    : option value * option value * gmap (list N) (list N) :=
  (session_state w !! "authenticated"%string,
   session_state w !! "current_user"%string,
   users w).

(** Whoever is logged in has a record in [users]. *)
Definition login_is_registered (w : world) : Prop :=
  ∀ a, session_state w !! "authenticated"%string = Some a → truthy a = true →
       ∃ u, session_state w !! "current_user"%string = Some (VStr u) ∧
            is_Some (users w !! u).

(** [u] is the current user and the rows of [v] are [rows0]. *)
Definition own_rows_only (u v : list N) (rows0 : list Row.t) (w : world)
    : Prop :=
  session_state w !! "current_user"%string = Some (VStr u) ∧
  Sql.select_rows v (watchlist w) = rows0.

(** The current user and the rows. *)
Definition user_and_rows (w : world) : option value * list Row.t :=
  (session_state w !! "current_user"%string, watchlist w).

(** ** A stand-in for the outside world

    Used where a statement is run on concrete data: the digest is a toy
    one (the code points reversed), TMDB knows one film, the web search
    finds nothing and the model answers [Not found]. *)
Definition offline : Externals := {|
  sha256_hexdigest := reverse;
  tmdb_search_movie := λ _ _, Some [438631];
  tmdb_movie_info := λ _ _,
    Some (Tmdb.mk (Some (lit "Dune")) None (Some (lit "7.8")) None None);
  tmdb_similar_movies := λ _ _, Some [];
  serpapi_organic_results := λ _ _, Some [];
  bedrock_invoke_model := λ _ _, Some (lit "Not found")
|}.

Definition empty_world : world := World ∅ [] ∅ [] [] [] [].

Definition dune : Info.t :=
  Info.mk (lit "Dune") (lit "No summary available.") (lit "7.8") None [] []
          [lit "Not found"].

Definition alice_row : Row.t :=
  Row.mk (lit "alice") (lit "Dune") (lit "7.8") (lit "A desert planet.")
         (lit "Max") 1.

Definition bob_row : Row.t :=
  Row.mk (lit "bob") (lit "Dune") (lit "7.8") (lit "A desert planet.")
         (lit "Max") 2.

(** [alice] logged in, with [Dune] on her watchlist and on the page. *)
Definition alice_world : world :=
  World {[ lit "alice" := reverse (lit "pw1") ]}
        [alice_row; bob_row]
        {[ "authenticated"%string := VBool true;
           "current_user"%string := VStr (lit "alice");
           "movie_info"%string := VInfo dune ]}
        [] [] [] [].

(** A world where no service can be reached, and one where TMDB knows
    no film. *)
Definition unreachable : Externals := {|
  sha256_hexdigest := reverse;
  tmdb_search_movie := λ _ _, None;
  tmdb_movie_info := λ _ _, None;
  tmdb_similar_movies := λ _ _, None;
  serpapi_organic_results := λ _ _, None;
  bedrock_invoke_model := λ _ _, None
|}.

Definition no_such_film : Externals := {|
  sha256_hexdigest := reverse;
  tmdb_search_movie := λ _ _, Some [];
  tmdb_movie_info := λ _ _, None;
  tmdb_similar_movies := λ _ _, None;
  serpapi_organic_results := λ _ _, None;
  bedrock_invoke_model := λ _ _, None
|}.

(** The services of [offline] with a model that names three platforms,
    and with a film that TMDB calls [personal_recs]. *)
Definition three_platforms : Externals := {|
  sha256_hexdigest := reverse;
  tmdb_search_movie := λ _ _, Some [438631];
  tmdb_movie_info := λ _ _,
    Some (Tmdb.mk (Some (lit "Dune")) None (Some (lit "7.8")) None None);
  tmdb_similar_movies := λ _ _, Some [];
  serpapi_organic_results := λ _ _, Some [];
  bedrock_invoke_model := λ _ _, Some (lit " Netflix , Max,Hulu ")
|}.

Definition odd_title : Externals := {|
  sha256_hexdigest := reverse;
  tmdb_search_movie := λ _ _, Some [1213];
  tmdb_movie_info := λ _ _,
    Some (Tmdb.mk (Some (lit "personal_recs")) None (Some (lit "6.1")) None
                  None);
  tmdb_similar_movies := λ _ _, Some [];
  serpapi_organic_results := λ _ _, Some [];
  bedrock_invoke_model := λ _ _, Some (lit "Not found")
|}.

Definition only (b : button) (b' : button) : bool :=
  match b, b' with
  | SearchButton, SearchButton | ClearButton, ClearButton
  | PersonalRecsButton, PersonalRecsButton | LogoutButton, LogoutButton
  | AddButton, AddButton | GetRecsButton, GetRecsButton
  | LoginButton, LoginButton | SignUpButton, SignUpButton => true
  | RemoveButton t, RemoveButton t' => bool_decide (t = t')
  | _, _ => false
  end.

(** The same stores before anyone logs in. *)
Definition fresh_world : world :=
  World {[ lit "alice" := reverse (lit "pw1") ]} [alice_row; bob_row] ∅ [] []
        [] [].

Definition alice_logs_in : widgets :=
  Widgets LoginMode (lit "alice") (lit "pw1") SearchByTitle [] []
          (λ b, if b is LoginButton then true else false) 3.

Definition alice_searches_dune : widgets :=
  Widgets LoginMode [] [] SearchByTitle (lit "Dune") []
          (λ b, if b is SearchButton then true else false) 4.

Definition alice_asks_for_recs : widgets :=
  Widgets LoginMode [] [] SearchByTitle [] []
          (λ b, if b is PersonalRecsButton then true else false) 5.

Definition alice_searches_personal_recs : widgets :=
  Widgets LoginMode [] [] SearchByTitle (lit "personal recs") []
          (only SearchButton) 6.

Definition alice_adds : widgets :=
  Widgets LoginMode [] [] SearchByTitle [] [] (only AddButton) 7.

(** * Properties *)

(** ** Strings *)

Lemma split_cons (sep : N) (s : list N) :
  ∃ piece pieces, split sep s = piece :: pieces.
Proof.
  induction s as [|c s [p [ps IH]]]; simpl; [by eauto|].
  destruct (c =? sep); [by eauto|]. rewrite IH. by eauto.
Qed.

Lemma split_not_nil (sep : N) (s : list N) : split sep s ≠ [].
Proof. destruct (split_cons sep s) as (p & ps & ->). done. Qed.

Lemma isspace_not_comma (c : N) : isspace c = true → (c =? comma) = false.
Proof.
  intros Hc. destruct (N.eqb_spec c comma) as [->|]; [|done].
  by vm_compute in Hc.
Qed.

Lemma lstrip_app (s t : list N) :
  lstrip (s ++ t) = match lstrip s with
                    | [] => lstrip t
                    | c :: r => (c :: r) ++ t
                    end.
Proof.
  induction s as [|c s IH]; simpl.
  - by destruct (lstrip t).
  - destruct (isspace c); [apply IH | done].
Qed.

Lemma rstrip_snoc_space (s : list N) (c : N) :
  isspace c = true → rstrip (s ++ [c]) = rstrip s.
Proof.
  intros Hc. unfold rstrip. rewrite reverse_snoc. simpl. by rewrite Hc.
Qed.

Lemma strip_cons_space (s : list N) (c : N) :
  isspace c = true → strip (c :: s) = strip s.
Proof. intros Hc. unfold strip. simpl. by rewrite Hc. Qed.

Lemma strip_snoc_space (s : list N) (c : N) :
  isspace c = true → strip (s ++ [c]) = strip s.
Proof.
  intros Hc. unfold strip. rewrite lstrip_app.
  destruct (lstrip s) as [|a r] eqn:E.
  - simpl. by rewrite Hc.
  - by rewrite rstrip_snoc_space.
Qed.

Lemma split_snoc (s : list N) (c : N) :
  (c =? comma) = false →
  ∃ init last,
    split comma s = init ++ [last] ∧
    split comma (s ++ [c]) = init ++ [last ++ [c]].
Proof.
  intros Hc. induction s as [|a s (init & last & E1 & E2)]; simpl.
  - exists [], []. by rewrite Hc.
  - destruct (a =? comma).
    + exists ([] :: init), last. by rewrite E1, E2.
    + rewrite E1, E2. destruct init as [|i init]; simpl.
      * by exists [], (a :: last).
      * by exists ((a :: i) :: init), last.
Qed.

Lemma split_and_trim_cons_space (s : list N) (c : N) :
  isspace c = true → split_and_trim (c :: s) = split_and_trim s.
Proof.
  intros Hc. unfold split_and_trim. simpl.
  rewrite (isspace_not_comma _ Hc).
  destruct (split_cons comma s) as (p & ps & ->). simpl.
  by rewrite strip_cons_space.
Qed.

Lemma split_and_trim_snoc_space (s : list N) (c : N) :
  isspace c = true → split_and_trim (s ++ [c]) = split_and_trim s.
Proof.
  intros Hc. unfold split_and_trim.
  destruct (split_snoc s c (isspace_not_comma _ Hc))
    as (init & last & -> & ->).
  rewrite !fmap_app. simpl. by rewrite strip_snoc_space.
Qed.

Lemma lstrip_spaces (s : list N) :
  ∃ ws, Forall (λ c, isspace c = true) ws ∧ s = ws ++ lstrip s.
Proof.
  induction s as [|c s (ws & Hws & E)]; simpl.
  - by exists [].
  - destruct (isspace c) eqn:Hc.
    + exists (c :: ws). split; [by constructor|]. simpl. by rewrite <- E.
    + by exists [].
Qed.

Lemma split_and_trim_prefix (ws s : list N) :
  Forall (λ c, isspace c = true) ws →
  split_and_trim (ws ++ s) = split_and_trim s.
Proof.
  induction 1 as [|c ws Hc _ IH]; simpl; [done|].
  by rewrite split_and_trim_cons_space.
Qed.

Lemma split_and_trim_suffix (ws s : list N) :
  Forall (λ c, isspace c = true) ws →
  split_and_trim (s ++ ws) = split_and_trim s.
Proof.
  intros Hws. revert s. induction Hws as [|c ws Hc _ IH]; intros s.
  - by rewrite app_nil_r.
  - rewrite (cons_middle c s ws), app_assoc, IH.
    by apply split_and_trim_snoc_space.
Qed.

(** Trimming the whole reply first, as [ask_claude] does, changes nothing
    of its parsing. *)
Lemma split_and_trim_strip (s : list N) :
  split_and_trim (strip s) = split_and_trim s.
Proof.
  destruct (lstrip_spaces s) as (ws1 & H1 & E1).
  destruct (lstrip_spaces (reverse (lstrip s))) as (ws2 & H2 & E2).
  apply (f_equal reverse) in E2.
  rewrite reverse_involutive, reverse_app in E2.
  fold (rstrip (lstrip s)) in E2. fold (strip s) in E2.
  rewrite <- (split_and_trim_suffix (reverse ws2) (strip s))
    by (by apply Forall_reverse).
  rewrite <- E2.
  by rewrite <- (split_and_trim_prefix ws1 (lstrip s) H1), <- E1.
Qed.

Lemma split_and_trim_not_nil (s : list N) : split_and_trim s ≠ [].
Proof.
  unfold split_and_trim. destruct (split_cons comma s) as (p & ps & ->). done.
Qed.

(** ** Tables *)

Lemma filter_has_key_unique (r : Row.t) (rows : list Row.t) (u t : list N) :
  Sql.primary_key rows → r ∈ rows → Row.key r = (u, t) →
  List.filter (Sql.has_key u t) rows = [r].
Proof.
  unfold Sql.primary_key. intros Hnd Hin Hk.
  induction rows as [|x rows IH]; [by apply elem_of_nil in Hin|].
  rewrite fmap_cons in Hnd. apply NoDup_cons in Hnd as [Hx Hnd].
  assert (Hnone : ∀ y, y ∈ rows → Row.key y ≠ Row.key x).
  { intros y Hy E. apply Hx. rewrite <- E. by apply list_elem_of_fmap_2. }
  simpl. unfold Sql.has_key at 1. apply elem_of_cons in Hin as [->|Hin].
  - rewrite bool_decide_eq_true_2 by done. f_equal.
    clear IH Hx Hnd. induction rows as [|y rows IH]; [done|]. simpl.
    unfold Sql.has_key at 1. rewrite bool_decide_eq_false_2.
    + apply IH. intros z Hz. apply Hnone. by right.
    + rewrite <- Hk. apply Hnone. by left.
  - rewrite bool_decide_eq_false_2; [by apply IH|].
    rewrite <- Hk. intros E. by apply (Hnone r).
Qed.

Lemma existsb_has_key (u t : list N) (rows : list Row.t) :
  existsb (Sql.has_key u t) rows = true ↔
  ∃ r, r ∈ rows ∧ Row.key r = (u, t).
Proof.
  rewrite existsb_exists. unfold Sql.has_key. split.
  - intros (r & Hin & Hk). exists r. apply bool_decide_eq_true_1 in Hk.
    by rewrite list_elem_of_In.
  - intros (r & Hin & Hk). exists r. rewrite <- list_elem_of_In.
    by rewrite bool_decide_eq_true_2.
Qed.

Lemma filter_nil_iff {A} (f : A → bool) (l : list A) :
  List.filter f l = [] ↔ ∀ x, x ∈ l → f x = false.
Proof.
  induction l as [|a l IH]; simpl.
  - split; [|done]. intros _ x Hx. by apply elem_of_nil in Hx.
  - destruct (f a) eqn:E; split.
    + done.
    + intros Hall. specialize (Hall a). rewrite E in Hall.
      by discriminate Hall; left.
    + intros Hnil x [->|Hx]%elem_of_cons; [done|]. by apply IH.
    + intros Hall. apply IH. intros x Hx. apply Hall. by right.
Qed.

Lemma filter_id_iff {A} (f : A → bool) (l : list A) :
  (∀ x, x ∈ l → f x = true) → List.filter f l = l.
Proof.
  induction l as [|a l IH]; simpl; [done|]. intros Hall.
  rewrite (Hall a) by by left. f_equal. apply IH. intros x Hx.
  apply Hall. by right.
Qed.

Lemma filter_filter_comm {A} (f g : A → bool) (l : list A) :
  List.filter f (List.filter g l) = List.filter g (List.filter f l).
Proof.
  induction l as [|a l IH]; simpl; [done|].
  destruct (g a) eqn:Eg, (f a) eqn:Ef; simpl; rewrite ?Eg, ?Ef, IH; done.
Qed.

Lemma index_insert_perm (r : Row.t) (rows : list Row.t) :
  Sql.index_insert r rows ≡ₚ r :: rows.
Proof.
  induction rows as [|x rows IH]; simpl; [done|].
  destruct (Sql.title_le _ _); [done|]. rewrite IH. apply Permutation_swap.
Qed.

Lemma index_order_perm (rows : list Row.t) : Sql.index_order rows ≡ₚ rows.
Proof.
  induction rows as [|x rows IH]; simpl; [done|].
  by rewrite index_insert_perm, IH.
Qed.

Lemma elem_of_index_order (r : Row.t) (rows : list Row.t) :
  r ∈ Sql.index_order rows ↔ r ∈ rows.
Proof. by rewrite index_order_perm. Qed.

Lemma index_order_nil (rows : list Row.t) :
  Sql.index_order rows = [] ↔ rows = [].
Proof.
  split; [|by intros ->]. intros E. apply Permutation_nil_r.
  rewrite <- E. symmetry. apply index_order_perm.
Qed.

Lemma world_eta (w : world) :
  World (users w) (watchlist w) (session_state w) (calls w) (page w)
        (widget_keys w) (widget_ids_this_run w) = w.
Proof. by destruct w. Qed.

(** ** Credential store *)

Section Credentials.
Context `{Externals}.

Lemma signup_user_new (u p : list N) (w : world) :
  users w !! u = None →
  signup_user u p w
  = (Returns true, set_users (<[u := hash_password p]> (users w)) w).
Proof.
  intros Hu. unfold signup_user, Sql.insert_user, mbind, M_bind, get_world.
  by rewrite Hu.
Qed.

Lemma signup_user_taken (u p : list N) (w : world) :
  is_Some (users w !! u) → signup_user u p w = (Returns false, w).
Proof.
  intros [h Hu]. unfold signup_user, Sql.insert_user, mbind, M_bind, get_world.
  by rewrite Hu.
Qed.

Lemma login_user_run (u p : list N) (w : world) :
  login_user u p w
  = (Returns match users w !! u with
             | None => VNone
             | Some stored => VBool (bool_decide (stored = hash_password p))
             end, w).
Proof.
  unfold login_user, Sql.select_password_hash, mbind, M_bind, get_world.
  by destruct (users w !! u).
Qed.

(** C2: registering a username that is not in the store returns true;
    logging in with the same password then returns True, and logging in
    with any password whose digest differs returns False. *)
Theorem register_then_authenticate (u p : list N) (w : world) :
  users w !! u = None →
  ∃ w', signup_user u p w = (Returns true, w') ∧
        login_user u p w' = (Returns (VBool true), w') ∧
        ∀ wrong, hash_password wrong ≠ hash_password p →
                 login_user u wrong w' = (Returns (VBool false), w').
Proof.
  intros Hu. eexists. split; [by apply signup_user_new|].
  split; [|intros wrong Hne]; rewrite login_user_run; simpl;
    rewrite lookup_insert_eq.
  - by rewrite bool_decide_eq_true_2.
  - by rewrite bool_decide_eq_false_2.
Qed.

(** C9: registering the same username twice returns true the first time
    and false the second, whatever the two passwords are; the second call
    returns normally and leaves the store as it was. *)
Theorem register_twice (u p1 p2 : list N) (w : world) :
  users w !! u = None →
  ∃ w', signup_user u p1 w = (Returns true, w') ∧
        signup_user u p2 w' = (Returns false, w').
Proof.
  intros Hu. eexists. split; [by apply signup_user_new|].
  apply signup_user_taken. simpl. rewrite lookup_insert_eq. by eexists.
Qed.

(** C8, as amended: a login for a username without a record and a login
    with a password whose digest differs both return a value that tests
    false and leave the world as it was, but not the same value: [None]
    without a record, [False] with one.  The Login button, which only
    tests the value, answers both with the same error box. *)
Theorem login_failures_test_false (u p : list N) (w : world) :
  (users w !! u = None ∨
   ∃ stored, users w !! u = Some stored ∧ stored ≠ hash_password p) →
  ∃ v, login_user u p w = (Returns v, w) ∧ truthy v = false ∧
       (users w !! u = None → v = VNone) ∧
       (is_Some (users w !! u) → v = VBool false) ∧
       ∀ ui, radio_mode ui = LoginMode → clicked ui LoginButton = true →
             username_input ui = u → password_input ui = p →
             login_ui ui w
             = (Raises StopException,
                set_page (page w ++ [StError "Invalid credentials."]) w).
Proof.
  intros Hcase. eexists. split; [apply login_user_run|].
  assert (Hv : match users w !! u with
               | None => VNone
               | Some stored => VBool (bool_decide (stored = hash_password p))
               end = match users w !! u with Some _ => VBool false | None => VNone end).
  { destruct Hcase as [->|(stored & -> & Hne)]; [done|].
    by rewrite bool_decide_eq_false_2. }
  rewrite Hv. repeat split.
  - by destruct (users w !! u).
  - by intros ->.
  - by intros [stored ->].
  - intros ui Hmode Hclick <- <-. unfold login_ui. rewrite Hmode, Hclick.
    unfold when, mbind, M_bind at 1 2. rewrite login_user_run, Hv.
    by destruct (users w !! username_input ui).
Qed.

End Credentials.

(** C2 on the stand-in world: [alice] registers with [pw1]. *)
Lemma register_then_authenticate_alice :
  users empty_world !! lit "alice" = None ∧
  ∃ w', @signup_user offline (lit "alice") (lit "pw1") empty_world
        = (Returns true, w') ∧
        @login_user offline (lit "alice") (lit "pw1") w'
        = (Returns (VBool true), w') ∧
        ∀ wrong, @hash_password offline wrong
                 ≠ @hash_password offline (lit "pw1") →
                 @login_user offline (lit "alice") wrong w'
                 = (Returns (VBool false), w').
Proof.
  split; [reflexivity|].
  apply (@register_then_authenticate offline (lit "alice") (lit "pw1")
           empty_world).
  reflexivity.
Defined.

(** C9 on the stand-in world. *)
Lemma register_twice_alice :
  users empty_world !! lit "alice" = None ∧
  ∃ w', @signup_user offline (lit "alice") (lit "pw1") empty_world
        = (Returns true, w') ∧
        @signup_user offline (lit "alice") (lit "pw2") w'
        = (Returns false, w').
Proof.
  split; [reflexivity|].
  apply (@register_twice offline (lit "alice") (lit "pw1") (lit "pw2")
           empty_world).
  reflexivity.
Defined.

(** C8 as the claim has it fails: without a record [login_user] returns
    [None], which is not the [False] a wrong password gives. *)
Lemma login_unknown_user_returns_None :
  (@login_user offline (lit "ghost") (lit "pw1") alice_world).1
  = Returns VNone ∧
  (@login_user offline (lit "alice") (lit "wrong") alice_world).1
  = Returns (VBool false) ∧
  (@login_user offline (lit "ghost") (lit "pw1") alice_world).1
  ≠ (@login_user offline (lit "alice") (lit "wrong") alice_world).1.
Proof. by vm_compute. Qed.

(** C8 as amended, on the stand-in world: a wrong password for [alice]. *)
Lemma login_failures_test_false_alice :
  (users alice_world !! lit "alice" = None ∨
   ∃ stored, users alice_world !! lit "alice" = Some stored ∧
             stored ≠ @hash_password offline (lit "wrong")) ∧
  ∃ v, @login_user offline (lit "alice") (lit "wrong") alice_world
       = (Returns v, alice_world) ∧ truthy v = false.
Proof.
  assert (Hpre : users alice_world !! lit "alice" = None ∨
    ∃ stored, users alice_world !! lit "alice" = Some stored ∧
              stored ≠ @hash_password offline (lit "wrong")).
  { right. exists (reverse (lit "pw1")). split; [reflexivity|].
    vm_compute. discriminate. }
  split; [exact Hpre|].
  destruct (@login_failures_test_false offline (lit "alice") (lit "wrong")
              alice_world Hpre) as (v & Hrun & Hfalse & _).
  by exists v.
Defined.

(** ** Watchlist store *)

Section Watchlist.

Lemma current_user_run (u : list N) (w : world) :
  session_state w !! "current_user"%string = Some (VStr u) →
  current_user w = (Returns u, w).
Proof.
  intros Hu. unfold current_user, Session.attr, Session.get, mbind, M_bind.
  by rewrite Hu.
Qed.

Lemma is_in_watchlist_run (u t : list N) (w : world) :
  is_in_watchlist u t w
  = (Returns (existsb (Sql.has_key u t) (watchlist w)), w).
Proof.
  unfold is_in_watchlist, Sql.select_one, mbind, M_bind, get_world.
  induction (watchlist w) as [|r rows IH]; simpl; [done|].
  destruct (Sql.has_key u t r); simpl; [done|]. exact IH.
Qed.

Lemma add_to_watchlist_run (now : N) (info : Info.t) (u : list N) (w : world) :
  session_state w !! "current_user"%string = Some (VStr u) →
  add_to_watchlist now info w
  = if existsb (Sql.has_key u (Info.title info)) (watchlist w)
    then (Returns tt,
          set_page (page w ++ [StWarning "Already in your watchlist."]) w)
    else (Returns tt,
          set_page (page w ++ [StSuccess "Added to watchlist!"])
            (set_watchlist
               (watchlist w ++
                  [Row.mk u (Info.title info) (Info.rating info)
                     (Info.summary info)
                     (join (lit ", ") (Info.available_on info)) now]) w)).
Proof.
  intros Hu. unfold add_to_watchlist, mbind, M_bind at 1.
  rewrite (current_user_run u w Hu). unfold M_bind at 1, get_world.
  unfold Sql.insert_watchlist.
  by destruct (existsb _ (watchlist w)).
Qed.

Lemma remove_from_watchlist_run (t u : list N) (w : world) :
  session_state w !! "current_user"%string = Some (VStr u) →
  remove_from_watchlist t w
  = (Returns tt, set_watchlist (Sql.delete_row u t (watchlist w)) w).
Proof.
  intros Hu. unfold remove_from_watchlist, mbind, M_bind.
  by rewrite (current_user_run u w Hu).
Qed.

Lemma clear_watchlist_run (u : list N) (w : world) :
  session_state w !! "current_user"%string = Some (VStr u) →
  clear_watchlist w
  = (Returns tt, set_watchlist (Sql.delete_rows u (watchlist w)) w).
Proof.
  intros Hu. unfold clear_watchlist, mbind, M_bind.
  by rewrite (current_user_run u w Hu).
Qed.

(** C1: when the logged-in user already has a row for the title on the
    page, the Add to Watchlist button returns normally with the warning
    box, changes neither table nor the session, and the table still holds
    exactly one row for that user and title: the row that was there. *)
Theorem add_duplicate_warns (now : N) (info : Info.t) (u : list N)
    (r : Row.t) (w : world) :
  session_state w !! "current_user"%string = Some (VStr u) →
  Sql.primary_key (watchlist w) →
  r ∈ watchlist w →
  Row.key r = (u, Info.title info) →
  ∃ w', add_to_watchlist now info w = (Returns tt, w') ∧
        page w' = page w ++ [StWarning "Already in your watchlist."] ∧
        watchlist w' = watchlist w ∧ users w' = users w ∧
        session_state w' = session_state w ∧
        List.filter (Sql.has_key u (Info.title info)) (watchlist w') = [r].
Proof.
  intros Hu Hpk Hin Hk. eexists. split.
  - rewrite (add_to_watchlist_run now info u w Hu).
    rewrite (proj2 (existsb_has_key _ _ _)) by eauto. reflexivity.
  - simpl. repeat split. by apply filter_has_key_unique.
Qed.

(** C6: with [u] logged in, (1) adding a title [u] does not have shows the
    success box and [is_in_watchlist] is then true for it; (2) after the
    Remove button of a title [is_in_watchlist] is false for it; (3) the
    removal of a title [u] does not have returns normally and leaves the
    world, every row included, as it was. *)
Theorem add_remove_exists (now : N) (info : Info.t) (u t : list N)
    (w : world) :
  session_state w !! "current_user"%string = Some (VStr u) →
  (is_in_watchlist u (Info.title info) w = (Returns false, w) →
   ∃ w', add_to_watchlist now info w = (Returns tt, w') ∧
         page w' = page w ++ [StSuccess "Added to watchlist!"] ∧
         is_in_watchlist u (Info.title info) w' = (Returns true, w')) ∧
  (∃ w', remove_from_watchlist t w = (Returns tt, w') ∧
         is_in_watchlist u t w' = (Returns false, w')) ∧
  (is_in_watchlist u t w = (Returns false, w) →
   remove_from_watchlist t w = (Returns tt, w)).
Proof.
  intros Hu. split; [|split].
  - rewrite is_in_watchlist_run. intros [= Habsent].
    eexists. split; [|split].
    + rewrite (add_to_watchlist_run now info u w Hu), Habsent. reflexivity.
    + done.
    + rewrite is_in_watchlist_run. simpl. rewrite existsb_app, Habsent. simpl.
      unfold Sql.has_key, Row.key. simpl. by rewrite bool_decide_eq_true_2.
  - eexists. split; [by apply remove_from_watchlist_run|].
    rewrite is_in_watchlist_run. simpl. f_equal. f_equal.
    apply not_true_is_false. rewrite existsb_exists.
    intros (r & Hin & Hk). apply filter_In in Hin as [_ Hnot].
    by rewrite Hk in Hnot.
  - rewrite is_in_watchlist_run. intros [= Habsent].
    rewrite (remove_from_watchlist_run t u w Hu). f_equal.
    unfold Sql.delete_row. rewrite filter_id_iff.
    + unfold set_watchlist. apply world_eta.
    + intros r Hin. destruct (Sql.has_key u t r) eqn:E; [|done].
      assert (existsb (Sql.has_key u t) (watchlist w) = true) as Hex.
      { apply existsb_exists. exists r. by rewrite <- list_elem_of_In. }
      congruence.
Qed.

(** C7: with [u] logged in, the Clear Watchlist button leaves no row of
    [u] and, for every other username, leaves its rows as they were, in
    their order; the [users] table and the session are not touched. *)
Theorem clear_isolates (u : list N) (w : world) :
  session_state w !! "current_user"%string = Some (VStr u) →
  ∃ w', clear_watchlist w = (Returns tt, w') ∧
        Sql.select_rows u (watchlist w') = [] ∧
        (∀ v, v ≠ u →
              Sql.select_rows v (watchlist w') = Sql.select_rows v (watchlist w)) ∧
        users w' = users w ∧ session_state w' = session_state w.
Proof.
  intros Hu. eexists. split; [by apply clear_watchlist_run|]. simpl.
  unfold Sql.select_rows, Sql.delete_rows. repeat split.
  - apply index_order_nil, filter_nil_iff. intros r Hin.
    apply list_elem_of_In, filter_In in Hin as [_ Hnot].
    by destruct (Sql.owned_by u r).
  - intros v Hne. f_equal. rewrite filter_filter_comm. apply filter_id_iff.
    intros r Hin. apply list_elem_of_In, filter_In in Hin as [_ Hv].
    unfold Sql.owned_by in *. apply bool_decide_eq_true_1 in Hv.
    rewrite bool_decide_eq_false_2; [done|]. congruence.
Qed.

End Watchlist.

(** C1 on the stand-in world: [alice] adds [Dune] again. *)
Lemma add_duplicate_warns_alice :
  ∃ w', add_to_watchlist 7 dune alice_world = (Returns tt, w') ∧
        page w' = page alice_world ++ [StWarning "Already in your watchlist."] ∧
        watchlist w' = watchlist alice_world ∧ users w' = users alice_world ∧
        session_state w' = session_state alice_world ∧
        List.filter (Sql.has_key (lit "alice") (Info.title dune)) (watchlist w')
        = [alice_row].
Proof.
  apply (add_duplicate_warns 7 dune (lit "alice") alice_row alice_world).
  - reflexivity.
  - apply (bool_decide_unpack _). vm_compute. exact I.
  - apply list_elem_of_here.
  - reflexivity.
Defined.

(** C6 on the stand-in world: [alice] removes [Dune]. *)
Lemma add_remove_exists_alice :
  ∃ w', remove_from_watchlist (lit "Dune") alice_world = (Returns tt, w') ∧
        is_in_watchlist (lit "alice") (lit "Dune") w' = (Returns false, w').
Proof.
  apply (add_remove_exists 7 dune (lit "alice") (lit "Dune") alice_world).
  reflexivity.
Defined.

(** C7 on the stand-in world: [alice] clears her list, [bob] keeps his. *)
Lemma clear_isolates_alice :
  ∃ w', clear_watchlist alice_world = (Returns tt, w') ∧
        Sql.select_rows (lit "alice") (watchlist w') = [] ∧
        Sql.select_rows (lit "bob") (watchlist w') = [bob_row].
Proof.
  destruct (clear_isolates (lit "alice") alice_world eq_refl)
    as (w' & Hrun & Hnone & Hothers & _).
  exists w'. split; [exact Hrun|]. split; [exact Hnone|].
  rewrite Hothers; [reflexivity|]. vm_compute. discriminate.
Defined.

(** ** Enrichment pipeline *)

Section Pipeline.
Context `{Externals}.

Lemma ask_claude_run (prompt : list N) (w : world) :
  ask_claude prompt w
  = (match bedrock_invoke_model (calls w) prompt with
     | Some text => Returns (strip text)
     | None => Raises ClientError
     end, after (InvokeModel 300 0 prompt) w).
Proof.
  unfold ask_claude, request, mbind, M_bind.
  by destruct (bedrock_invoke_model (calls w) prompt).
Qed.

Lemma parse_reply_run (prompt : list N) (w : world) :
  (result ← ask_claude prompt; mret (strip <$> split comma result)) w
  = (match bedrock_invoke_model (calls w) prompt with
     | Some reply => Returns (split_and_trim reply)
     | None => Raises ClientError
     end, after (InvokeModel 300 0 prompt) w).
Proof.
  unfold mbind, M_bind. rewrite ask_claude_run.
  destruct (bedrock_invoke_model (calls w) prompt) as [reply|]; [|done].
  unfold mret, M_ret. f_equal. f_equal. apply split_and_trim_strip.
Qed.

Lemma ask_claude_for_genre_recs_run (g : list N) (w : world) :
  ask_claude_for_genre_recs g w
  = (match bedrock_invoke_model (calls w) (genre_prompt_text g) with
     | Some reply => Returns (split_and_trim reply)
     | None => Raises ClientError
     end, after (InvokeModel 300 0 (genre_prompt_text g)) w).
Proof. apply parse_reply_run. Qed.

Lemma get_claude_personal_recommendations_run (u : list N) (w : world) :
  Sql.select_rows u (watchlist w) ≠ [] →
  let prompt :=
    personal_prompt
      (join (lit ", ") (Row.title <$> Sql.select_rows u (watchlist w))) in
  get_claude_personal_recommendations u w
  = (match bedrock_invoke_model (calls w) prompt with
     | Some reply => Returns (split_and_trim reply)
     | None => Raises ClientError
     end, after (InvokeModel 300 0 prompt) w).
Proof.
  intros Hrows. unfold get_claude_personal_recommendations.
  unfold mbind at 1, M_bind at 1, get_world.
  destruct (Sql.select_rows u (watchlist w)) as [|r rows]; [done|].
  apply parse_reply_run.
Qed.

Lemma search_snippets_from_serpapi_run (query : list N) (w : world) :
  search_snippets_from_serpapi query w
  = (match serpapi_organic_results (calls w) query with
     | Some results => Returns (snippets_text results)
     | None => Raises ClientError
     end, after (SerpSearch query 5) w).
Proof.
  unfold search_snippets_from_serpapi, request, mbind, M_bind, snippets_text.
  destruct (serpapi_organic_results (calls w) query) as [results|]; [|done].
  by destruct (join nl (omap id results)).
Qed.

Lemma get_streaming_info_run (title : list N) (w : world) :
  let query := lit "Where can I watch " ++ title ++ lit " streaming" in
  get_streaming_info title w
  = match serpapi_organic_results (calls w) query with
    | None => (Raises ClientError, after (SerpSearch query 5) w)
    | Some results =>
        let prompt := streaming_prompt (snippets_text results) title in
        (match bedrock_invoke_model (calls w ++ [SerpSearch query 5]) prompt with
         | Some reply => Returns (split_and_trim reply)
         | None => Raises ClientError
         end,
         after (InvokeModel 300 0 prompt) (after (SerpSearch query 5) w))
    end.
Proof.
  intros query. unfold get_streaming_info. unfold mbind at 1, M_bind at 1.
  rewrite search_snippets_from_serpapi_run. fold query.
  destruct (serpapi_organic_results (calls w) query) as [results|]; [|done].
  unfold ask_claude_for_streaming_info. by rewrite parse_reply_run.
Qed.

(** C3: when the web search answers without any snippet,
    [get_streaming_info] sends, after that search, exactly one request to
    the model; its prompt is the fixed question about the title, the text
    ["No useful search results found."] and the fixed instruction, each
    two line feeds from the next.  When the model answers, the result is
    its reply split at every comma (code point 44) with every piece
    stripped, so the reply [Not found] gives [["Not found"]]. *)
Theorem availability_without_snippets (title : list N)
    (results : list (option (list N))) (w : world) :
  let query := lit "Where can I watch " ++ title ++ lit " streaming" in
  let prompt :=
    lit "Based on these web search snippets, where can I stream or watch the movie or tv show '"
    ++ title ++ lit "'?" ++ [10; 10]
    ++ lit "No useful search results found." ++ [10; 10]
    ++ lit "List only the streaming platforms or services. If unknown, say 'Not found'." in
  serpapi_organic_results (calls w) query = Some results →
  omap id results = [] →
  contains (lit "No useful search results found.") prompt ∧
  calls (get_streaming_info title w).2
  = calls w ++ [SerpSearch query 5; InvokeModel 300 0 prompt] ∧
  (∀ reply,
     bedrock_invoke_model (calls w ++ [SerpSearch query 5]) prompt = Some reply →
     (get_streaming_info title w).1 = Returns (strip <$> split 44 reply)) ∧
  (bedrock_invoke_model (calls w ++ [SerpSearch query 5]) prompt
   = Some (lit "Not found") →
   (get_streaming_info title w).1 = Returns [lit "Not found"]).
Proof.
  intros query prompt Hsearch Hnone.
  assert (Htext : snippets_text results = no_results).
  { unfold snippets_text. by rewrite Hnone. }
  assert (Hprompt : streaming_prompt no_results title = prompt).
  { reflexivity. }
  pose proof (get_streaming_info_run title w) as Hrun. cbv zeta in Hrun.
  fold query in Hrun. rewrite Hsearch, Htext, Hprompt in Hrun.
  rewrite Hrun. simpl. split; [|split; [|split]].
  - unfold prompt, contains.
    exists (lit "Based on these web search snippets, where can I stream or watch the movie or tv show '"
            ++ title ++ lit "'?" ++ [10; 10]),
           ([10; 10]
            ++ lit "List only the streaming platforms or services. If unknown, say 'Not found'.").
    rewrite <- !app_assoc. reflexivity.
  - by rewrite <- app_assoc.
  - by intros reply ->.
  - by intros ->.
Qed.

(** C5: for a user without a row in [watchlist],
    [get_claude_personal_recommendations] returns the empty list and
    leaves the world as it was: no request is sent, to the model or to
    anything else. *)
Theorem personal_recommendations_empty (u : list N) (w : world) :
  Sql.select_rows u (watchlist w) = [] →
  get_claude_personal_recommendations u w = (Returns [], w).
Proof.
  intros Hrows. unfold get_claude_personal_recommendations.
  unfold mbind, M_bind, get_world. by rewrite Hrows.
Qed.

(** C10: the parsing of a reply never gives the empty list, whatever the
    reply, the empty one included; so [ask_claude_for_genre_recs],
    [get_claude_personal_recommendations] on a watchlist with a row and
    [get_streaming_info] return the parsing of the model's reply when the
    services answer, raise otherwise, and never return the empty list. *)
Theorem parsed_replies_never_empty (reply g u title : list N) (w : world) :
  split_and_trim reply ≠ [] ∧
  split_and_trim [] = [[]] ∧
  (ask_claude_for_genre_recs g w).1
  = match bedrock_invoke_model (calls w) (genre_prompt_text g) with
    | Some reply => Returns (split_and_trim reply)
    | None => Raises ClientError
    end ∧
  (Sql.select_rows u (watchlist w) ≠ [] →
   (get_claude_personal_recommendations u w).1
   = match bedrock_invoke_model (calls w)
             (personal_prompt
                (join (lit ", ")
                   (Row.title <$> Sql.select_rows u (watchlist w)))) with
     | Some reply => Returns (split_and_trim reply)
     | None => Raises ClientError
     end) ∧
  (let query := lit "Where can I watch " ++ title ++ lit " streaming" in
   (get_streaming_info title w).1
   = match serpapi_organic_results (calls w) query with
     | None => Raises ClientError
     | Some results =>
         match bedrock_invoke_model (calls w ++ [SerpSearch query 5])
                 (streaming_prompt (snippets_text results) title) with
         | Some reply => Returns (split_and_trim reply)
         | None => Raises ClientError
         end
     end) ∧
  (ask_claude_for_genre_recs g w).1 ≠ Returns [] ∧
  (Sql.select_rows u (watchlist w) ≠ [] →
   (get_claude_personal_recommendations u w).1 ≠ Returns []) ∧
  (get_streaming_info title w).1 ≠ Returns [].
Proof.
  pose proof split_and_trim_not_nil as Hne.
  split; [done|]. split; [done|].
  rewrite ask_claude_for_genre_recs_run.
  pose proof (get_streaming_info_run title w) as Hs. cbv zeta in Hs. rewrite Hs.
  split; [done|]. split; [|split; [|split; [|split]]].
  - intros Hrows.
    by rewrite (get_claude_personal_recommendations_run u w Hrows).
  - cbv zeta. by destruct (serpapi_organic_results _ _).
  - simpl. destruct (bedrock_invoke_model _ _); [|done].
    intros [= E]. by apply Hne in E.
  - intros Hrows. rewrite (get_claude_personal_recommendations_run u w Hrows).
    simpl. destruct (bedrock_invoke_model _ _); [|done].
    intros [= E]. by apply Hne in E.
  - destruct (serpapi_organic_results _ _); [|done]. simpl.
    destruct (bedrock_invoke_model _ _); [|done].
    intros [= E]. by apply Hne in E.
Qed.

End Pipeline.

(** C3 on the stand-in world: no snippet for [Dune]; a model that names
    three platforms, and one that says [Not found]. *)
Lemma availability_without_snippets_dune :
  calls (@get_streaming_info three_platforms (lit "Dune") empty_world).2
  = [SerpSearch (lit "Where can I watch Dune streaming") 5;
     InvokeModel 300 0
       (lit "Based on these web search snippets, where can I stream or watch the movie or tv show 'Dune'?"
        ++ [10; 10] ++ lit "No useful search results found." ++ [10; 10]
        ++ lit "List only the streaming platforms or services. If unknown, say 'Not found'.")] ∧
  (@get_streaming_info three_platforms (lit "Dune") empty_world).1
  = Returns [lit "Netflix"; lit "Max"; lit "Hulu"] ∧
  (@get_streaming_info offline (lit "Dune") empty_world).1
  = Returns [lit "Not found"].
Proof.
  destruct (@availability_without_snippets three_platforms (lit "Dune") []
              empty_world eq_refl eq_refl) as (_ & Hcalls & Hreply & _).
  destruct (@availability_without_snippets offline (lit "Dune") []
              empty_world eq_refl eq_refl) as (_ & _ & _ & Hnf).
  split; [exact Hcalls|].
  split; [exact (Hreply _ eq_refl) | exact (Hnf eq_refl)].
Defined.

(** C5 on the stand-in world: [carol] has saved nothing. *)
Lemma personal_recommendations_empty_carol :
  Sql.select_rows (lit "carol") (watchlist alice_world) = [] ∧
  @get_claude_personal_recommendations offline (lit "carol") alice_world
  = (Returns [], alice_world).
Proof.
  split; [reflexivity|].
  apply (@personal_recommendations_empty offline (lit "carol") alice_world).
  reflexivity.
Defined.

(** ** Session controller *)

Lemma live_ext (w w' : world) :
  (∀ k, k ∈ views → session_state w' !! k = session_state w !! k) →
  live w' = live w.
Proof.
  intros Hsame. unfold live. apply filter_ext_in. intros k Hk.
  by rewrite Hsame by by apply list_elem_of_In.
Qed.

Lemma at_most_one_live_ext (w w' : world) :
  session_state w' = session_state w →
  at_most_one_live w → at_most_one_live w'.
Proof.
  intros Hsame. unfold at_most_one_live. rewrite (live_ext w w'); [done|].
  intros k _. by rewrite Hsame.
Qed.

Lemma live_count (w : world) :
  List.length (live w)
  = ((if session_state w !! "movie_info"%string is Some _ then 1 else 0)
     + (if session_state w !! "claude_recs"%string is Some _ then 1 else 0)
     + (if session_state w !! "personal_recs"%string is Some _ then 1 else 0))%nat.
Proof.
  unfold live, views. simpl.
  destruct (session_state w !! "movie_info"%string),
           (session_state w !! "claude_recs"%string),
           (session_state w !! "personal_recs"%string); reflexivity.
Qed.

Create HintDb script discriminated.
#[export] Hint Unfold show st_rerun st_stop Session.set Session.pop
  Session.attr Session.init current_user st_button_key iterate : script.

Section Frames.
Context {X : Type} (field : world → X).

Lemma leaves_ret {A} (a : A) : leaves field (mret a).
Proof. by intros w. Qed.

Lemma leaves_raise {A} (e : exn) : leaves field (@raise A e).
Proof. by intros w. Qed.

Lemma leaves_get_world : leaves field get_world.
Proof. by intros w. Qed.

Lemma leaves_get (k : string) : leaves field (Session.get k).
Proof. by intros w. Qed.

Lemma leaves_view (ui : widgets) (k : string) : leaves field (view ui k).
Proof. by intros w. Qed.

Lemma leaves_bind {A B} (m : M A) (f : A → M B) :
  leaves field m → (∀ a, leaves field (f a)) → leaves field (m ≫= f).
Proof.
  intros Hm Hf w. unfold mbind, M_bind. specialize (Hm w).
  destruct (m w) as [[a|e] w1]; simpl in *; [|done]. by rewrite Hf.
Qed.

Lemma leaves_modify (f : world → world) :
  (∀ w, field (f w) = field w) → leaves field (modify f).
Proof. intros Hf w. apply Hf. Qed.

Lemma leaves_request {A} (c : call) (answer : list call → option A) :
  (∀ l w, field (set_calls l w) = field w) →
  leaves field (request c answer).
Proof.
  intros Hf w. unfold request. by destruct (answer (calls w)); simpl.
Qed.

Lemma leaves_when (b : bool) (m : M unit) :
  leaves field m → leaves field (when b m).
Proof. intros Hm. destruct b; [done|]. apply leaves_ret. Qed.

End Frames.

(** Walks through script code, one bind or one case at a time. *)
Ltac leaves_step :=
  match goal with
  | |- leaves _ (mbind _ _) => apply leaves_bind; [|intros ?]
  | |- leaves _ (mret _) => apply leaves_ret
  | |- leaves _ (raise _) => apply leaves_raise
  | |- leaves _ get_world => apply leaves_get_world
  | |- leaves _ (Session.get _) => apply leaves_get
  | |- leaves _ (view _ _) => apply leaves_view
  | |- leaves _ (when _ _) => apply leaves_when
  | |- leaves _ (modify _) => apply leaves_modify; by intros []
  | |- leaves _ (request _ _) => apply leaves_request; by intros ? []
  | |- leaves _ (match ?x with _ => _ end) => destruct x
  | |- leaves _ _ => assumption
  | |- leaves _ _ => progress autounfold with script
  end.
Ltac leaves := repeat leaves_step.

(** Closes [k ∉ views] for a key [k] that is written out. *)
Ltac not_a_view :=
  let Hin := fresh in
  intros Hin; apply list_elem_of_In in Hin; simpl in Hin;
  intuition discriminate.

#[export] Hint Unfold signup_user login_user ask_claude
  ask_claude_for_streaming_info ask_claude_for_genre_recs
  get_claude_personal_recommendations search_snippets_from_serpapi
  get_streaming_info get_movie_info : script.

Section Views.
Context `{Externals}.

Lemma leaves_remove_buttons (ui : widgets) (rows : list Row.t) :
  leaves session_state (remove_buttons ui rows).
Proof.
  induction rows as [|r rows IH]; simpl; leaves.
  unfold remove_from_watchlist. leaves.
Qed.

Lemma leaves_keeps {A} (m : M A) : leaves session_state m → keeps_views m.
Proof. intros Hm w. apply at_most_one_live_ext, Hm. Qed.

Lemma ends_keeps {A} (m : M A) : ends_with_one_view m → keeps_views m.
Proof. intros Hm w _. apply Hm. Qed.

Lemma keeps_bind {A B} (m : M A) (f : A → M B) :
  keeps_views m → (∀ a, keeps_views (f a)) → keeps_views (m ≫= f).
Proof.
  intros Hm Hf w Hw. unfold mbind, M_bind. specialize (Hm w Hw).
  destruct (m w) as [[a|e] w1]; simpl in *; [|done]. by apply Hf.
Qed.

Lemma keeps_when (b : bool) (m : M unit) :
  keeps_views m → keeps_views (when b m).
Proof. intros Hm. destruct b; [done|]. apply leaves_keeps, leaves_ret. Qed.

Lemma keeps_set_other (k : string) (v : value) :
  k ∉ views → keeps_views (Session.set k v).
Proof.
  intros Hk w. unfold at_most_one_live.
  rewrite (live_ext w (Session.set k v w).2); [done|].
  intros k' Hk'. simpl. apply lookup_insert_ne. by intros ->.
Qed.

Lemma keeps_init_other (k : string) (v : value) :
  k ∉ views → keeps_views (Session.init k v).
Proof.
  intros Hk. unfold Session.init. apply keeps_bind.
  - apply leaves_keeps. leaves.
  - intros [old|]; [apply leaves_keeps; leaves|by apply keeps_set_other].
Qed.

(** The three handlers that fill a view drop the other two. *)
Lemma search_fills_one_view (v : value) :
  ends_with_one_view (Session.set "movie_info" v;;
                      Session.pop "claude_recs";;
                      Session.pop "personal_recs").
Proof.
  intros w. unfold at_most_one_live. rewrite live_count. simpl.
  by simplify_map_eq.
Qed.

Lemma genre_fills_one_view (v : value) :
  ends_with_one_view (Session.set "claude_recs" v;;
                      Session.pop "movie_info";;
                      Session.pop "personal_recs").
Proof.
  intros w. unfold at_most_one_live. rewrite live_count. simpl.
  by simplify_map_eq.
Qed.

Lemma personal_fills_one_view (v : value) :
  ends_with_one_view (Session.set "personal_recs" v;;
                      Session.pop "movie_info";;
                      Session.pop "claude_recs";;
                      st_rerun).
Proof.
  intros w. unfold at_most_one_live. rewrite live_count. simpl.
  by simplify_map_eq.
Qed.

Lemma logout_drops_every_view :
  ends_with_one_view (Session.set "authenticated" (VBool false);;
                      Session.set "current_user" (VStr []);;
                      Session.pop "movie_info";;
                      Session.pop "claude_recs";;
                      Session.pop "personal_recs";;
                      st_rerun).
Proof.
  intros w. unfold at_most_one_live. rewrite live_count. simpl.
  simplify_map_eq. lia.
Qed.

Lemma keeps_login_ui (ui : widgets) : keeps_views (login_ui ui).
Proof.
  unfold login_ui. apply keeps_bind; [|intros _; apply leaves_keeps; leaves].
  destruct (radio_mode ui); apply keeps_when.
  - apply keeps_bind; [apply leaves_keeps; leaves|]. intros ok.
    destruct (truthy ok); [|apply leaves_keeps; leaves].
    apply keeps_bind; [apply keeps_set_other; not_a_view|intros _].
    apply keeps_bind; [apply keeps_set_other; not_a_view|intros _].
    apply leaves_keeps. leaves.
  - apply leaves_keeps. leaves.
Qed.

Lemma keeps_search_ui (ui : widgets) : keeps_views (search_ui ui).
Proof.
  unfold search_ui. destruct (selectbox_mode ui); apply keeps_when.
  - apply keeps_bind; [apply leaves_keeps; leaves|]. intros info.
    apply ends_keeps, search_fills_one_view.
  - apply keeps_bind; [apply leaves_keeps; leaves|]. intros titles.
    apply ends_keeps, genre_fills_one_view.
Qed.

Lemma leaves_movie_info_ui (ui : widgets) :
  leaves session_state (movie_info_ui ui).
Proof. unfold movie_info_ui. leaves; unfold add_to_watchlist; leaves. Qed.

Lemma keeps_sidebar_ui (ui : widgets) : keeps_views (sidebar_ui ui).
Proof.
  unfold sidebar_ui.
  apply keeps_bind; [apply leaves_keeps; leaves|intros user].
  apply keeps_bind; [apply leaves_keeps; leaves|intros w0].
  apply keeps_bind; [apply leaves_keeps; leaves|intros _].
  apply keeps_bind; [apply leaves_keeps, leaves_remove_buttons|intros _].
  apply keeps_bind; [apply leaves_keeps; unfold clear_watchlist; leaves|].
  intros _. apply keeps_when. unfold personal_recs_handler.
  apply keeps_bind; [apply leaves_keeps; leaves|intros user'].
  apply keeps_bind; [apply leaves_keeps; leaves|intros titles].
  apply ends_keeps, personal_fills_one_view.
Qed.

Lemma keeps_logout_ui (ui : widgets) : keeps_views (logout_ui ui).
Proof.
  unfold logout_ui. apply keeps_when, ends_keeps, logout_drops_every_view.
Qed.

Lemma keeps_main (ui : widgets) : keeps_views (main ui).
Proof.
  unfold main.
  apply keeps_bind; [apply keeps_init_other; not_a_view|intros _].
  apply keeps_bind; [apply keeps_init_other; not_a_view|intros _].
  apply keeps_bind; [apply leaves_keeps; leaves|intros authenticated].
  destruct (negb (truthy authenticated)); [apply keeps_login_ui|].
  apply keeps_bind; [apply keeps_search_ui|intros _].
  apply keeps_bind;
    [apply leaves_keeps; unfold claude_recs_ui; leaves|intros _].
  apply keeps_bind; [apply leaves_keeps, leaves_movie_info_ui|intros _].
  apply keeps_bind; [apply keeps_sidebar_ui|intros _].
  apply keeps_bind;
    [apply leaves_keeps; unfold personal_recs_ui; leaves|intros _].
  apply keeps_logout_ui.
Qed.

Lemma run_keeps_views (ui : widgets) (w : world) :
  at_most_one_live w → at_most_one_live (run ui w).
Proof.
  intros Hw. unfold run.
  apply (at_most_one_live_ext (main ui (set_page [] w)).2); [done|].
  apply keeps_main. by apply (at_most_one_live_ext w).
Qed.

(** X22: The handlers keep their own views apart: in every state a session
    reaches, by any number of runs of the script on any answers of the
    widgets and of the services, the script has stored a value under at
    most one of [movie_info], [claude_recs] and [personal_recs], since
    each handler that fills one of them pops the two others before the
    run ends.  This counts the values the script stores; a key that a
    Remove button brings in is not among them, see
    [remove_button_key_is_a_view]. *)
Theorem one_live_view (w0 w : world) :
  session_state w0 = ∅ → rtc step w0 w → at_most_one_live w.
Proof.
  intros Hfresh Hsteps.
  assert (Hw0 : at_most_one_live w0).
  { unfold at_most_one_live. rewrite live_count, Hfresh.
    rewrite !lookup_empty. simpl. lia. }
  clear Hfresh. induction Hsteps as [w|w1 w2 w3 Hstep _ IH]; [done|].
  apply IH. destruct Hstep as [ui w1]. by apply run_keeps_views.
Qed.

End Views.

(** [one_live_view] on the stand-in world: [alice] logs in, searches
    [Dune], then asks for personal recommendations. *)
Lemma one_live_view_alice :
  session_state fresh_world = ∅ ∧
  at_most_one_live
    (@run offline alice_asks_for_recs
       (@run offline alice_searches_dune
          (@run offline alice_logs_in fresh_world))).
Proof.
  split; [reflexivity|].
  apply (@one_live_view offline fresh_world); [reflexivity|].
  eapply rtc_l; [apply step_run|].
  eapply rtc_l; [apply step_run|].
  eapply rtc_l; [apply step_run|].
  apply rtc_refl.
Defined.

(** ** The primary key of [watchlist] is kept by every run *)

Lemma primary_key_filter (p : Row.t → bool) (rows : list Row.t) :
  Sql.primary_key rows → Sql.primary_key (List.filter p rows).
Proof.
  unfold Sql.primary_key. induction rows as [|r rows IH]; simpl; [done|].
  intros [Hr Hnd]%NoDup_cons.
  destruct (p r); [|by apply IH].
  simpl. constructor; [|by apply IH].
  intros (x & Hk & Hx)%list_elem_of_fmap. apply Hr.
  apply list_elem_of_In, filter_In in Hx as [Hx _].
  rewrite Hk. by apply list_elem_of_fmap_2, list_elem_of_In.
Qed.

Lemma primary_key_insert (now : N) (u t r s a : list N)
    (rows rows' : list Row.t) :
  Sql.primary_key rows →
  Sql.insert_watchlist now u t r s a rows = Done rows' →
  Sql.primary_key rows'.
Proof.
  unfold Sql.primary_key, Sql.insert_watchlist. intros Hnd.
  destruct (existsb (Sql.has_key u t) rows) eqn:E; [done|]. intros [= <-].
  rewrite fmap_app. apply NoDup_app. split; [done|]. split.
  - intros k (x & Hk & Hx)%list_elem_of_fmap [Hnew|[]%elem_of_nil]%elem_of_cons.
    assert (existsb (Sql.has_key u t) rows = true); [|congruence].
    apply existsb_has_key. exists x. split; [done|]. by rewrite <- Hk, Hnew.
  - apply NoDup_singleton.
Qed.

Section PrimaryKey.
Context `{Externals}.

Lemma leaves_keeps_key {A} (m : M A) :
  leaves watchlist m → keeps_primary_key m.
Proof. intros Hm w. by rewrite Hm. Qed.

Lemma keeps_key_bind {A B} (m : M A) (f : A → M B) :
  keeps_primary_key m → (∀ a, keeps_primary_key (f a)) →
  keeps_primary_key (m ≫= f).
Proof.
  intros Hm Hf w Hw. unfold mbind, M_bind. specialize (Hm w Hw).
  destruct (m w) as [[a|e] w1]; simpl in *; [|done]. by apply Hf.
Qed.

Lemma keeps_key_when (b : bool) (m : M unit) :
  keeps_primary_key m → keeps_primary_key (when b m).
Proof. intros Hm. destruct b; [done|]. apply leaves_keeps_key, leaves_ret. Qed.

Lemma keeps_key_add_to_watchlist (now : N) (i : Info.t) :
  keeps_primary_key (add_to_watchlist now i).
Proof.
  unfold add_to_watchlist.
  apply keeps_key_bind; [apply leaves_keeps_key; leaves|intros user].
  intros w Hw. unfold mbind, M_bind, get_world.
  destruct (Sql.insert_watchlist _ _ _ _ _ _ _) as [rows|] eqn:E; [|done].
  simpl. by eapply primary_key_insert.
Qed.

Lemma keeps_key_remove_from_watchlist (t : list N) :
  keeps_primary_key (remove_from_watchlist t).
Proof.
  unfold remove_from_watchlist.
  apply keeps_key_bind; [apply leaves_keeps_key; leaves|intros user].
  intros w Hw. by apply primary_key_filter.
Qed.

Lemma keeps_key_clear_watchlist : keeps_primary_key clear_watchlist.
Proof.
  unfold clear_watchlist.
  apply keeps_key_bind; [apply leaves_keeps_key; leaves|intros user].
  intros w Hw. by apply primary_key_filter.
Qed.

Lemma keeps_key_remove_buttons (ui : widgets) (rows : list Row.t) :
  keeps_primary_key (remove_buttons ui rows).
Proof.
  induction rows as [|r rows IH]; simpl; [apply leaves_keeps_key; leaves|].
  apply keeps_key_bind; [apply leaves_keeps_key; leaves|intros pressed].
  apply keeps_key_bind; [|by intros _]. apply keeps_key_when.
  apply keeps_key_bind; [apply keeps_key_remove_from_watchlist|intros _].
  apply leaves_keeps_key. leaves.
Qed.

Lemma keeps_key_main (ui : widgets) : keeps_primary_key (main ui).
Proof.
  unfold main.
  apply keeps_key_bind; [apply leaves_keeps_key; leaves|intros _].
  apply keeps_key_bind; [apply leaves_keeps_key; leaves|intros _].
  apply keeps_key_bind; [apply leaves_keeps_key; leaves|intros a].
  destruct (negb (truthy a)).
  { apply leaves_keeps_key. unfold login_ui. leaves. }
  apply keeps_key_bind; [apply leaves_keeps_key; unfold search_ui; leaves|].
  intros _. apply keeps_key_bind.
  { apply leaves_keeps_key. unfold claude_recs_ui. leaves. }
  intros _. apply keeps_key_bind.
  { unfold movie_info_ui.
    apply keeps_key_bind; [apply leaves_keeps_key; leaves|].
    intros [[| | |i|]|]; try solve [apply leaves_keeps_key; leaves].
    apply keeps_key_when, keeps_key_add_to_watchlist. }
  intros _. apply keeps_key_bind.
  { unfold sidebar_ui.
    apply keeps_key_bind; [apply leaves_keeps_key; leaves|intros user].
    apply keeps_key_bind; [apply leaves_keeps_key; leaves|intros w0].
    apply keeps_key_bind; [apply leaves_keeps_key; leaves|intros _].
    apply keeps_key_bind; [apply keeps_key_remove_buttons|intros _].
    apply keeps_key_bind.
    - apply keeps_key_when.
      apply keeps_key_bind; [apply keeps_key_clear_watchlist|intros _].
      apply leaves_keeps_key. leaves.
    - intros _. apply leaves_keeps_key. unfold personal_recs_handler. leaves. }
  intros _. apply keeps_key_bind.
  { apply leaves_keeps_key. unfold personal_recs_ui. leaves. }
  intros _. apply leaves_keeps_key. unfold logout_ui. leaves.
Qed.

(** X16: Whatever the widgets and the services answer, the rows of a store
    that started with distinct keys keep distinct keys. *)
Lemma primary_key_invariant (w0 w : world) :
  Sql.primary_key (watchlist w0) → rtc step w0 w →
  Sql.primary_key (watchlist w).
Proof.
  intros Hw0 Hsteps. induction Hsteps as [w|w1 w2 w3 Hstep _ IH]; [done|].
  apply IH. destruct Hstep as [ui w1]. by apply (keeps_key_main ui).
Qed.

End PrimaryKey.

(** ** The model at work *)

Example select_rows_in_index_order :
  Row.title <$>
    Sql.select_rows (lit "alice")
      [Row.mk (lit "alice") (lit "Dune") [] [] [] 1;
       Row.mk (lit "bob") (lit "Heat") [] [] [] 2;
       Row.mk (lit "alice") (lit "Alien") [] [] [] 3;
       Row.mk (lit "alice") (lit "Dune 2") [] [] [] 4;
       Row.mk (lit "alice") (lit "alien") [] [] [] 5]
  = [lit "Alien"; lit "Dune"; lit "Dune 2"; lit "alien"].
Proof. reflexivity. Qed.

Example split_and_trim_pieces :
  split_and_trim (lit " Netflix , Max,, Hulu ")
  = [lit "Netflix"; lit "Max"; []; lit "Hulu"].
Proof. reflexivity. Qed.

Example alice_session :
  let w1 := @run offline alice_logs_in fresh_world in
  let w2 := @run offline alice_searches_dune w1 in
  let w3 := @run offline alice_asks_for_recs w2 in
  page w1 = [StSuccess "Login successful!"] ∧
  live w1 = [] ∧ session_state w2 !! "movie_info"%string = Some (VInfo dune) ∧
  live w2 = ["movie_info"%string] ∧ live w3 = ["personal_recs"%string] ∧
  session_state w3 !! "personal_recs"%string = Some (VList [lit "Not found"]).
Proof. by vm_compute. Qed.

(** Sign up, log in, add [Dune] twice, remove it: what each step answers
    and how many rows [alice] has after it. *)
Example alice_scenario :
  let E := offline in
  let logged_in (w : world) :=
    set_session_state {[ "current_user"%string := VStr (lit "alice") ]} w in
  let w1 := (signup_user (lit "alice") (lit "pw1") empty_world).2 in
  let w2 := logged_in w1 in
  let w3 := (add_to_watchlist 1 dune w2).2 in
  let w4 := (add_to_watchlist 2 dune w3).2 in
  let w5 := (remove_from_watchlist (lit "Dune") w4).2 in
  (signup_user (lit "alice") (lit "pw1") empty_world).1 = Returns true ∧
  (signup_user (lit "alice") (lit "pw2") w1).1 = Returns false ∧
  (login_user (lit "alice") (lit "pw1") w1).1 = Returns (VBool true) ∧
  (login_user (lit "alice") (lit "wrong") w1).1 = Returns (VBool false) ∧
  page w3 = [StSuccess "Added to watchlist!"] ∧
  page w4 = [StSuccess "Added to watchlist!";
             StWarning "Already in your watchlist."] ∧
  Row.title <$> Sql.select_rows (lit "alice") (watchlist w4) = [lit "Dune"] ∧
  Sql.select_rows (lit "alice") (watchlist w5) = [].
Proof. by vm_compute. Qed.

(** * Further properties *)

(** ** Parsing of replies *)

Lemma split_length (s : list N) :
  List.length (split comma s) = S (commas s).
Proof.
  unfold commas. induction s as [|c s IH]; simpl; [done|].
  destruct (c =? comma); simpl; [by rewrite IH|].
  destruct (split_cons comma s) as (p & ps & E). rewrite E in *. exact IH.
Qed.

Lemma split_no_comma (s : list N) :
  Forall (λ piece, comma ∉ piece) (split comma s).
Proof.
  induction s as [|c s IH]; simpl.
  - constructor; [|done]. by apply not_elem_of_nil.
  - destruct (N.eqb_spec c comma) as [->|Hc].
    + constructor; [|done]. by apply not_elem_of_nil.
    + destruct (split comma s) as [|p ps].
      * constructor; [|done]. by intros [?|[]%elem_of_nil]%elem_of_cons.
      * apply Forall_cons in IH as [Hp Hps]. constructor; [|done].
        by intros [?|?]%elem_of_cons.
Qed.

Lemma split_without_comma (s : list N) : comma ∉ s → split comma s = [s].
Proof.
  induction s as [|c s IH]; simpl; [done|]. intros Hc.
  apply not_elem_of_cons in Hc as [Hc Hs].
  destruct (N.eqb_spec c comma); [done|]. by rewrite IH.
Qed.

Lemma split_app_comma (a rest : list N) :
  comma ∉ a → split comma (a ++ comma :: rest) = a :: split comma rest.
Proof.
  induction a as [|c a IH]; simpl; [done|]. intros Hc.
  apply not_elem_of_cons in Hc as [Hc Ha].
  destruct (N.eqb_spec c comma); [done|]. by rewrite IH.
Qed.

Lemma rstrip_spaces (s : list N) :
  ∃ ws, Forall (λ c, isspace c = true) ws ∧ s = rstrip s ++ ws.
Proof.
  destruct (lstrip_spaces (reverse s)) as (ws & Hws & E).
  exists (reverse ws). split; [by apply Forall_reverse|].
  apply (f_equal reverse) in E.
  by rewrite reverse_involutive, reverse_app in E.
Qed.

Lemma lstrip_head (s : list N) (c : N) :
  head (lstrip s) = Some c → isspace c = false.
Proof.
  induction s as [|a s IH]; simpl; [done|].
  destruct (isspace a) eqn:E; [done|]. simpl. by intros [= <-].
Qed.

Lemma lstrip_id (s : list N) :
  (∀ c, head s = Some c → isspace c = false) → lstrip s = s.
Proof. destruct s as [|a s]; simpl; [done|]. intros Hs. by rewrite Hs. Qed.

Lemma rstrip_id (s : list N) :
  (∀ c, last s = Some c → isspace c = false) → rstrip s = s.
Proof.
  intros Hs. unfold rstrip. rewrite lstrip_id; [apply reverse_involutive|].
  intros c. rewrite head_reverse. apply Hs.
Qed.

Lemma strip_trimmed (s : list N) : trimmed (strip s).
Proof.
  split; intros c.
  - unfold strip. destruct (rstrip_spaces (lstrip s)) as (ws & _ & E).
    intros Hc. apply (lstrip_head s). rewrite E.
    by destruct (rstrip (lstrip s)).
  - unfold strip, rstrip. rewrite last_reverse. apply lstrip_head.
Qed.

Lemma strip_id (s : list N) : trimmed s → strip s = s.
Proof.
  intros [Hhead Hlast]. unfold strip. rewrite (lstrip_id s Hhead).
  by apply rstrip_id.
Qed.

Lemma strip_no_comma (s : list N) : comma ∉ s → comma ∉ strip s.
Proof.
  intros Hs Hin. apply Hs.
  destruct (lstrip_spaces s) as (ws1 & _ & E1).
  destruct (rstrip_spaces (lstrip s)) as (ws2 & _ & E2).
  rewrite E1, E2. fold (strip s). set_solver.
Qed.

Lemma split_and_trim_clean (reply : list N) :
  Forall (λ e, (comma ∉ e) ∧ trimmed e) (split_and_trim reply).
Proof.
  unfold split_and_trim. apply Forall_fmap.
  eapply Forall_impl; [apply split_no_comma|]. intros piece Hp. simpl.
  split; [by apply strip_no_comma|apply strip_trimmed].
Qed.

Lemma split_and_trim_join (l : list (list N)) :
  l ≠ [] → Forall (λ e, (comma ∉ e) ∧ trimmed e) l →
  split_and_trim (join (lit ", ") l) = l.
Proof.
  intros Hne Hall. induction Hall as [|e l [He Ht] Hall IH]; [done|].
  destruct l as [|e' l].
  - simpl. unfold split_and_trim. rewrite split_without_comma by done.
    simpl. by rewrite strip_id.
  - change (join (lit ", ") (e :: e' :: l))
      with (e ++ comma :: 32 :: join (lit ", ") (e' :: l)).
    unfold split_and_trim. rewrite split_app_comma by done.
    rewrite fmap_cons, strip_id by done. f_equal.
    fold (split_and_trim (32 :: join (lit ", ") (e' :: l))).
    rewrite split_and_trim_cons_space by done. by apply IH.
Qed.

(** X1: A reply with [n] commas gives [n + 1] entries: the number of titles
    or platforms is whatever the model wrote, never checked against 5. *)
Theorem split_and_trim_length (reply : list N) :
  List.length (split_and_trim reply) = S (commas reply).
Proof. unfold split_and_trim. rewrite length_fmap. apply split_length. Qed.

(** X2: No entry of a parsed reply holds a comma, and none starts or ends
    with white space. *)
Theorem split_and_trim_entries (reply entry : list N) :
  entry ∈ split_and_trim reply → (comma ∉ entry) ∧ trimmed entry.
Proof.
  apply (proj1 (Forall_forall _ _) (split_and_trim_clean reply)).
Qed.

(** X3: The text the Add button stores in [available_on], the entries of
    [get_streaming_info] joined by [", "], parses back to those entries. *)
Theorem available_on_round_trip (reply : list N) :
  split_and_trim (join (lit ", ") (split_and_trim reply))
  = split_and_trim reply.
Proof.
  apply split_and_trim_join;
    [apply split_and_trim_not_nil|apply split_and_trim_clean].
Qed.

(** [split_and_trim_entries] on a reply with stray blanks. *)
Lemma split_and_trim_entries_netflix :
  lit "Max" ∈ split_and_trim (lit " Netflix , Max,, Hulu ") ∧
  (comma ∉ lit "Max") ∧ trimmed (lit "Max").
Proof.
  assert (Hin : lit "Max" ∈ split_and_trim (lit " Netflix , Max,, Hulu ")).
  { apply list_elem_of_In. vm_compute. tauto. }
  split; [exact Hin|].
  exact (split_and_trim_entries (lit " Netflix , Max,, Hulu ") (lit "Max") Hin).
Defined.

(** ** More on the pipeline and the credential store *)

Lemma join_nil_iff (sep : list N) (l : list (list N)) :
  sep ≠ [] → join sep l = [] ↔ l = [] ∨ l = [[]].
Proof.
  intros Hsep. destruct l as [|x [|y l]]; simpl.
  - naive_solver.
  - split; [intros ->; by right|]. by intros [?|[= ->]].
  - split; [|by intros [?|?]]. intros E.
    apply app_eq_nil in E as [_ E]. by apply app_eq_nil in E as [? _].
Qed.

Section PipelineMore.
Context `{Externals}.

(** X4: What [search_snippets_from_serpapi] returns when the search answers
    is never the empty text: it is the fallback sentence when there is no
    snippet, and also when there is one snippet that is empty; otherwise
    it is the snippets joined by newlines. *)
Theorem search_snippets_fallback (query : list N)
    (results : list (option (list N))) (w : world) :
  serpapi_organic_results (calls w) query = Some results →
  ∃ text, (search_snippets_from_serpapi query w).1 = Returns text ∧
          text ≠ [] ∧
          (omap id results = [] ∨ omap id results = [[]] →
           text = no_results) ∧
          (omap id results ≠ [] → omap id results ≠ [[]] →
           text = join nl (omap id results)).
Proof.
  intros Hs. rewrite search_snippets_from_serpapi_run, Hs. simpl.
  exists (snippets_text results). split; [done|]. unfold snippets_text.
  pose proof (join_nil_iff nl (omap id results)) as Hnil.
  destruct (join nl (omap id results)) as [|c text] eqn:E.
  - split; [done|]. split; [done|]. intros H1 H2.
    destruct (proj1 (Hnil ltac:(done)) eq_refl); done.
  - split; [done|]. split; [|done]. intros Hcase.
    by apply (proj2 (Hnil ltac:(done))) in Hcase.
Qed.

(** X7: [login_user] never changes the world, and what it returns tests true
    exactly when [users] holds the digest of the password under the
    username. *)
Theorem login_user_truthy_iff (u p : list N) (w : world) :
  ∃ v, login_user u p w = (Returns v, w) ∧
       (truthy v = true ↔ users w !! u = Some (hash_password p)).
Proof.
  eexists. split; [apply login_user_run|].
  destruct (users w !! u) as [stored|]; simpl; [|done].
  rewrite bool_decide_eq_true. split; [by intros ->|by intros [= ->]].
Qed.

Lemma get_movie_info_run (t : list N) (w : world) :
  get_movie_info t w
  = match tmdb_search_movie (calls w) t with
    | None => (Raises ClientError, after (TmdbSearch t) w)
    | Some [] => (Returns None, after (TmdbSearch t) w)
    | Some (movie_id :: _) =>
        let w1 := after (TmdbSearch t) w in
        match tmdb_movie_info (calls w1) movie_id with
        | None => (Raises ClientError, after (TmdbInfo movie_id) w1)
        | Some details =>
            let w2 := after (TmdbInfo movie_id) w1 in
            match tmdb_similar_movies (calls w2) movie_id with
            | None => (Raises ClientError, after (TmdbSimilar movie_id) w2)
            | Some similar =>
                let w3 := after (TmdbSimilar movie_id) w2 in
                match get_streaming_info t w3 with
                | (Raises e, w4) => (Raises e, w4)
                | (Returns available, w4) =>
                    (Returns (Some (Info.mk
                       (default t (Tmdb.title details))
                       (default (lit "No summary available.")
                          (Tmdb.overview details))
                       (default (lit "N/A") (Tmdb.vote_average details))
                       (poster_url_of (Tmdb.poster_path details))
                       (default [] (Tmdb.genres details))
                       (take 5 similar)
                       available)), w4)
                end
            end
        end
    end.
Proof.
  unfold get_movie_info, mbind, M_bind, request at 1.
  destruct (tmdb_search_movie (calls w) t) as [[|movie_id more]|]; try done.
  cbv zeta. unfold request at 1. fold (after (TmdbSearch t) w).
  destruct (tmdb_movie_info _ movie_id) as [details|]; [|done].
  unfold request at 1.
  fold (after (TmdbInfo movie_id) (after (TmdbSearch t) w)).
  destruct (tmdb_similar_movies _ movie_id) as [similar|]; [|done].
  fold (after (TmdbSimilar movie_id)
          (after (TmdbInfo movie_id) (after (TmdbSearch t) w))).
  by destruct (get_streaming_info t _) as [[available|e] w4].
Qed.

(** X5: [get_movie_info] ends in one of three ways.  It returns [None], when
    TMDB found no film and nothing but that search was requested; it
    returns a record, built from the first film found, with at most five
    similar titles and at least one entry under [available_on]; or it
    raises the error of a client.  It changes neither table nor the
    session. *)
Theorem get_movie_info_outcomes (t : list N) (w : world) :
  match (get_movie_info t w).1 with
  | Returns None =>
      tmdb_search_movie (calls w) t = Some [] ∧
      calls (get_movie_info t w).2 = calls w ++ [TmdbSearch t]
  | Returns (Some info) =>
      (∃ movie_id more details,
         tmdb_search_movie (calls w) t = Some (movie_id :: more) ∧
         tmdb_movie_info (calls w ++ [TmdbSearch t]) movie_id = Some details ∧
         Info.title info = default t (Tmdb.title details)) ∧
      (List.length (Info.similar_titles info) ≤ 5)%nat ∧
      Info.available_on info ≠ []
  | Raises e => e = ClientError
  end ∧
  users (get_movie_info t w).2 = users w ∧
  watchlist (get_movie_info t w).2 = watchlist w ∧
  session_state (get_movie_info t w).2 = session_state w.
Proof.
  rewrite get_movie_info_run.
  destruct (tmdb_search_movie (calls w) t) as [[|movie_id more]|]; try done.
  cbv zeta.
  destruct (tmdb_movie_info _ movie_id) as [details|] eqn:Ed; [|done].
  destruct (tmdb_similar_movies _ movie_id) as [similar|]; [|done].
  pose proof (get_streaming_info_run t
    (after (TmdbSimilar movie_id)
       (after (TmdbInfo movie_id) (after (TmdbSearch t) w)))) as Hs.
  cbv zeta in Hs. rewrite Hs. clear Hs.
  destruct (serpapi_organic_results _ _) as [results|]; [|done].
  destruct (bedrock_invoke_model _ _) as [reply|]; [|done]. simpl.
  split; [|done]. split; [by exists movie_id, more, details|]. split.
  - rewrite length_take. lia.
  - apply split_and_trim_not_nil.
Qed.

End PipelineMore.

(** [search_snippets_fallback] on the stand-in world, where the search
    finds nothing. *)
Lemma search_snippets_fallback_offline :
  (@search_snippets_from_serpapi offline (lit "Dune") empty_world).1
  = Returns no_results.
Proof.
  destruct (@search_snippets_fallback offline (lit "Dune") [] empty_world
              eq_refl) as (text & Hrun & _ & Hfallback & _).
  rewrite Hrun. f_equal. apply Hfallback. by left.
Defined.

(** ** The script as a whole *)

Lemma initialised_session (w : world) :
  session_state (initialised w)
  = <["current_user"%string :=
        default (VStr []) (session_state w !! "current_user"%string)]>
      (<["authenticated"%string :=
           default (VBool false) (session_state w !! "authenticated"%string)]>
         (session_state w)).
Proof.
  unfold initialised, Session.init, Session.get, Session.set, modify,
    mbind, M_bind, mret, M_ret.
  destruct (session_state w !! "authenticated"%string) as [a|] eqn:Ea; simpl.
  all: destruct (session_state w !! "current_user"%string) as [c|] eqn:Ec.
  all: simpl; rewrite ?lookup_insert_ne, ?Ec by done; simpl.
  - by rewrite (insert_id _ _ a Ea), (insert_id _ _ c Ec).
  - by rewrite (insert_id _ _ a Ea).
  - rewrite (insert_id _ "current_user"%string c); [done|].
    by rewrite lookup_insert_ne.
  - done.
Qed.

Lemma initialised_tables (w : world) :
  users (initialised w) = users w ∧ watchlist (initialised w) = watchlist w ∧
  calls (initialised w) = calls w ∧ page (initialised w) = page w.
Proof.
  unfold initialised, Session.init, Session.get, Session.set, modify,
    mbind, M_bind, mret, M_ret.
  destruct (session_state w !! "authenticated"%string); simpl;
    by case_match.
Qed.

Section Main.
Context `{Externals}.

Lemma init_returns (k : string) (v : value) (w : world) :
  Session.init k v w = (Returns tt, (Session.init k v w).2).
Proof.
  unfold Session.init, Session.get, mbind, M_bind. by case_match.
Qed.

Lemma initialised_authenticated (w : world) :
  session_state (initialised w) !! "authenticated"%string
  = Some (default (VBool false) (session_state w !! "authenticated"%string)).
Proof.
  rewrite initialised_session, lookup_insert_ne by done.
  apply lookup_insert_eq.
Qed.

Lemma initialised_current_user (w : world) :
  session_state (initialised w) !! "current_user"%string
  = Some (default (VStr []) (session_state w !! "current_user"%string)).
Proof. rewrite initialised_session. apply lookup_insert_eq. Qed.

Lemma initialised_other (k : string) (w : world) :
  k ≠ "authenticated"%string → k ≠ "current_user"%string →
  session_state (initialised w) !! k = session_state w !! k.
Proof.
  intros Ha Hc. by rewrite initialised_session, !lookup_insert_ne.
Qed.

Lemma main_unfold (ui : widgets) (w : world) :
  main ui w
  = if truthy (default (VBool false)
                 (session_state w !! "authenticated"%string))
    then main_page ui (initialised w)
    else login_ui ui (initialised w).
Proof.
  unfold main. unfold mbind at 1, M_bind at 1. rewrite init_returns.
  unfold mbind at 1, M_bind at 1. rewrite init_returns.
  fold (initialised w).
  unfold mbind at 1, M_bind at 1, Session.attr.
  unfold mbind at 1, M_bind at 1, Session.get.
  rewrite initialised_authenticated. simpl.
  by destruct (truthy _).
Qed.

Lemma login_ui_run (ui : widgets) (w : world) :
  login_ui ui w
  = match radio_mode ui with
    | LoginMode =>
        if clicked ui LoginButton then
          if bool_decide (users w !! username_input ui
                          = Some (hash_password (password_input ui)))
          then (Raises RerunException,
                set_page (page w ++ [StSuccess "Login successful!"])
                  (set_session_state
                     (<["current_user"%string := VStr (username_input ui)]>
                        (<["authenticated"%string := VBool true]>
                           (session_state w))) w))
          else (Raises StopException,
                set_page (page w ++ [StError "Invalid credentials."]) w)
        else (Raises StopException, w)
    | SignUpMode =>
        if clicked ui SignUpButton then
          match users w !! username_input ui with
          | None =>
              (Raises StopException,
               set_page (page w ++ [StSuccess "Account created! Please log in."])
                 (set_users
                    (<[username_input ui :=
                         hash_password (password_input ui)]> (users w)) w))
          | Some _ =>
              (Raises StopException,
               set_page (page w ++ [StWarning "Username already exists."]) w)
          end
        else (Raises StopException, w)
    end.
Proof.
  unfold login_ui. destruct (radio_mode ui).
  - destruct (clicked ui LoginButton); [|done]. unfold when.
    unfold mbind at 1 2, M_bind at 1 2. rewrite login_user_run.
    destruct (users w !! username_input ui) as [stored|] eqn:Eu; simpl.
    + repeat case_bool_decide; simplify_eq; try done; by destruct w.
    + done.
  - destruct (clicked ui SignUpButton); [|done]. unfold when.
    unfold mbind at 1 2, M_bind at 1 2.
    destruct (users w !! username_input ui) as [stored|] eqn:Eu.
    + rewrite signup_user_taken by by rewrite Eu. done.
    + rewrite signup_user_new by done. by destruct w.
Qed.

Lemma run_users (ui : widgets) (w : world) :
  users (run ui w) = users (main ui (set_page [] w)).2.
Proof. reflexivity. Qed.

Lemma run_watchlist (ui : widgets) (w : world) :
  watchlist (run ui w) = watchlist (main ui (set_page [] w)).2.
Proof. reflexivity. Qed.

Lemma run_session_state (ui : widgets) (w : world) :
  session_state (run ui w) = session_state (main ui (set_page [] w)).2.
Proof. reflexivity. Qed.

Lemma run_calls (ui : widgets) (w : world) :
  calls (run ui w) = calls (main ui (set_page [] w)).2.
Proof. reflexivity. Qed.

Lemma run_page (ui : widgets) (w : world) :
  page (run ui w) = page (main ui (set_page [] w)).2.
Proof. reflexivity. Qed.

Lemma logged_out_default (w : world) :
  logged_out w →
  truthy (default (VBool false) (session_state w !! "authenticated"%string))
  = false.
Proof.
  intros Hw. destruct (session_state w !! "authenticated"%string) eqn:E; [|done].
  by apply Hw.
Qed.

(** X10: Before anyone is logged in, a run of the script, whatever is typed
    and clicked, stops at the login page: it leaves [watchlist] and the
    three views as they were, sends no request to any service, and ends
    with [st.stop()] or, after a login, with [st.rerun()]. *)
Theorem run_before_login (ui : widgets) (w : world) :
  logged_out w →
  watchlist (run ui w) = watchlist w ∧
  calls (run ui w) = calls w ∧
  (∀ k, k ∈ views → session_state (run ui w) !! k = session_state w !! k) ∧
  ((main ui (set_page [] w)).1 = Raises StopException ∨
   (main ui (set_page [] w)).1 = Raises RerunException).
Proof.
  intros Hw. rewrite run_watchlist, run_calls.
  setoid_rewrite run_session_state. rewrite main_unfold.
  rewrite (logged_out_default (set_page [] w)) by done.
  rewrite login_ui_run.
  destruct (initialised_tables (set_page [] w)) as (Hu & Hwl & Hc & Hp).
  assert (Hviews : ∀ k, k ∈ views →
    session_state (initialised (set_page [] w)) !! k = session_state w !! k).
  { intros k Hk. rewrite initialised_other; [done| |];
      intros ->; revert Hk; not_a_view. }
  repeat case_match; simpl; repeat split; auto.
  intros k Hk. rewrite !lookup_insert_ne; [by apply Hviews| |];
    intros <-; revert Hk; not_a_view.
Qed.

(** X11: A click on Login while nobody is logged in: when [users] holds the
    digest of the typed password under the typed username, the run ends
    with that user logged in, the success box and [st.rerun()]; otherwise
    nobody is logged in after it and the page shows the error box. *)
Theorem login_run (ui : widgets) (w : world) :
  logged_out w → radio_mode ui = LoginMode → clicked ui LoginButton = true →
  (users w !! username_input ui = Some (hash_password (password_input ui)) →
   logged_in (username_input ui) (run ui w) ∧
   page (run ui w) = [StSuccess "Login successful!"] ∧
   (main ui (set_page [] w)).1 = Raises RerunException) ∧
  (users w !! username_input ui ≠ Some (hash_password (password_input ui)) →
   logged_out (run ui w) ∧
   page (run ui w) = [StError "Invalid credentials."] ∧
   (main ui (set_page [] w)).1 = Raises StopException).
Proof.
  intros Hw Hmode Hclick. unfold logged_in, logged_out.
  rewrite !run_page. setoid_rewrite run_session_state. rewrite main_unfold.
  rewrite (logged_out_default (set_page [] w)) by done.
  rewrite login_ui_run, Hmode, Hclick.
  destruct (initialised_tables (set_page [] w)) as (Hu & Hwl & Hc & Hp).
  rewrite Hu, Hp. simpl. split; intros Hdigest.
  - rewrite bool_decide_eq_true_2 by done. simpl.
    rewrite lookup_insert_ne, !lookup_insert_eq by done. done.
  - rewrite bool_decide_eq_false_2 by done. simpl. split; [|done].
    intros a.
    change (session_state (set_page _ ?x)) with (session_state x).
    rewrite initialised_authenticated. intros [= <-].
    by apply (logged_out_default (set_page [] w)).
Qed.

End Main.

(** [run_before_login] on the stand-in world: a sign-up click. *)
Lemma run_before_login_fresh :
  watchlist (@run offline alice_logs_in fresh_world) = watchlist fresh_world ∧
  calls (@run offline alice_logs_in fresh_world) = calls fresh_world.
Proof.
  destruct (@run_before_login offline alice_logs_in fresh_world)
    as (Hw & Hc & _).
  - intros a. vm_compute. discriminate.
  - by split.
Defined.

(** [login_run] on the stand-in world: [alice] with her password. *)
Lemma login_run_alice :
  logged_in (lit "alice") (@run offline alice_logs_in fresh_world).
Proof.
  destruct (@login_run offline alice_logs_in fresh_world) as [Hok _].
  - intros a. vm_compute. discriminate.
  - reflexivity.
  - reflexivity.
  - apply Hok. reflexivity.
Defined.

(** ** What every run keeps *)

Section Preserves.
Context (I : world → Prop).

Lemma preserves_ret {A} (a : A) : preserves I (mret a).
Proof. by intros w. Qed.

Lemma preserves_raise {A} (e : exn) : preserves I (@raise A e).
Proof. by intros w. Qed.

Lemma preserves_get_world : preserves I get_world.
Proof. by intros w. Qed.

Lemma preserves_get (k : string) : preserves I (Session.get k).
Proof. by intros w. Qed.

Lemma preserves_view (ui : widgets) (k : string) : preserves I (view ui k).
Proof. by intros w. Qed.

Lemma preserves_bind {A B} (m : M A) (f : A → M B) :
  preserves I m → (∀ a, preserves I (f a)) → preserves I (m ≫= f).
Proof.
  intros Hm Hf w Hw. unfold mbind, M_bind. specialize (Hm w Hw).
  destruct (m w) as [[a|e] w1]; simpl in *; [|done]. by apply Hf.
Qed.

Lemma preserves_modify (f : world → world) :
  (∀ w, I w → I (f w)) → preserves I (modify f).
Proof. intros Hf w. apply Hf. Qed.

Lemma preserves_request {A} (c : call) (answer : list call → option A) :
  (∀ w, I w → I (after c w)) → preserves I (request c answer).
Proof.
  intros Hc w Hw. unfold request. by destruct (answer (calls w)); apply Hc.
Qed.

Lemma preserves_when (b : bool) (m : M unit) :
  preserves I m → preserves I (when b m).
Proof. intros Hm. destruct b; [done|]. apply preserves_ret. Qed.

Lemma leaves_preserves {X A} (field : world → X) (m : M A) :
  (∀ w w', field w' = field w → I w → I w') →
  leaves field m → preserves I m.
Proof. intros Hfield Hm w. apply Hfield, Hm. Qed.

End Preserves.

(** As [leaves], with the tactic that settles what [modify] and [request]
    ask for. *)
Ltac frames_step side :=
  match goal with
  | |- leaves _ (mbind _ _) => apply leaves_bind; [|intros ?]
  | |- leaves _ (mret _) => apply leaves_ret
  | |- leaves _ (raise _) => apply leaves_raise
  | |- leaves _ get_world => apply leaves_get_world
  | |- leaves _ (Session.get _) => apply leaves_get
  | |- leaves _ (view _ _) => apply leaves_view
  | |- leaves _ (when _ _) => apply leaves_when
  | |- leaves _ (modify _) => apply leaves_modify; side
  | |- leaves _ (request _ _) => apply leaves_request; side
  | |- leaves _ (match ?x with _ => _ end) => destruct x
  | |- leaves _ _ => assumption
  | |- leaves _ _ => progress autounfold with script
  end.
Ltac frames side := repeat frames_step side.

Ltac preserves_step side :=
  match goal with
  | |- preserves _ (mbind _ _) => apply preserves_bind; [|intros ?]
  | |- preserves _ (mret _) => apply preserves_ret
  | |- preserves _ (raise _) => apply preserves_raise
  | |- preserves _ get_world => apply preserves_get_world
  | |- preserves _ (Session.get _) => apply preserves_get
  | |- preserves _ (view _ _) => apply preserves_view
  | |- preserves _ (when _ _) => apply preserves_when
  | |- preserves _ (modify _) => apply preserves_modify; side
  | |- preserves _ (request _ _) => apply preserves_request; side
  | |- preserves _ (match ?x with _ => _ end) => destruct x
  | |- preserves _ _ => assumption
  | |- preserves _ _ => progress autounfold with script
  end.
Ltac preserves_by side := repeat preserves_step side.

#[export] Hint Unfold search_ui claude_recs_ui movie_info_ui sidebar_ui
  personal_recs_ui logout_ui login_ui personal_recs_handler add_to_watchlist
  remove_from_watchlist clear_watchlist main_page : script.

Section Invariants.
Context `{Externals}.

Lemma leaves_remove_buttons_any {X} (field : world → X) (ui : widgets)
    (rows : list Row.t) :
  (∀ t, leaves field (st_button_key ui t)) →
  (∀ t w, field (set_watchlist t w) = field w) →
  leaves field (remove_buttons ui rows).
Proof.
  intros Hb Hf. induction rows as [|r rows IH]; simpl; [apply leaves_ret|].
  apply leaves_bind; [apply Hb|intros pressed].
  frames ltac:(intros; apply Hf).
Qed.

Lemma preserves_remove_buttons (I : world → Prop) (ui : widgets)
    (rows : list Row.t) :
  (∀ t, preserves I (st_button_key ui t)) →
  (∀ t, preserves I (remove_from_watchlist t)) →
  preserves I (remove_buttons ui rows).
Proof.
  intros Hb Hf. induction rows as [|r rows IH]; simpl.
  - apply preserves_ret.
  - apply preserves_bind; [apply Hb|intros pressed].
    apply preserves_bind; [|by intros _]. apply preserves_when.
    apply preserves_bind; [apply Hf|intros _; apply preserves_raise].
Qed.

Lemma leaves_users_main_page (ui : widgets) : leaves users (main_page ui).
Proof.
  autounfold with script. frames ltac:(by intros; try case_match).
  all: try (apply leaves_remove_buttons_any; [|by intros ? []]).
  all: intros t; autounfold with script; frames ltac:(by intros []).
Qed.

Lemma run_keeps_record (ui : widgets) (w : world) (u h : list N) :
  users w !! u = Some h → users (run ui w) !! u = Some h.
Proof.
  intros Hu. rewrite run_users, main_unfold.
  destruct (initialised_tables (set_page [] w)) as (Husers & _).
  destruct (truthy _).
  - by rewrite leaves_users_main_page, Husers.
  - rewrite login_ui_run. repeat case_match; simpl; rewrite ?Husers; try done.
    rewrite lookup_insert_ne; [done|]. intros E.
    rewrite Husers, E in *. simpl in *. congruence.
Qed.

(** X12: A record of [users] is never removed and its digest never changed:
    whatever is typed and clicked in any number of runs, a username keeps
    the digest it was registered with. *)
Theorem credentials_are_kept (w0 w : world) (u h : list N) :
  rtc step w0 w → users w0 !! u = Some h → users w !! u = Some h.
Proof.
  induction 1 as [w|w1 w2 w3 Hstep _ IH]; [done|]. intros Hu. apply IH.
  destruct Hstep as [ui w1]. by apply run_keeps_record.
Qed.

Lemma calls_main (ui : widgets) :
  preserves (λ w, Forall well_formed_call (calls w)) (main ui).
Proof.
  unfold main. autounfold with script.
  preserves_by ltac:(
    first [ by intros [] ?
          | intros w Hw; simpl; apply Forall_app; split; [done|];
            by repeat constructor ]).
  all: apply preserves_remove_buttons; intros t.
  all: apply (leaves_preserves _ calls); [by intros ?? ->|].
  all: autounfold with script; frames ltac:(by intros []).
Qed.

(** X17: Every request a session sends keeps to the fixed settings: the model
    is always asked with [max_tokens] 300 and [temperature] 0, and the web
    search always for 5 results. *)
Theorem calls_are_well_formed (w0 w : world) :
  rtc step w0 w → Forall well_formed_call (calls w0) →
  Forall well_formed_call (calls w).
Proof.
  induction 1 as [w|w1 w2 w3 Hstep _ IH]; [done|]. intros Hw. apply IH.
  destruct Hstep as [ui w1]. rewrite run_calls. by apply calls_main.
Qed.

End Invariants.

(** [credentials_are_kept] on the stand-in world: [alice] keeps her
    digest through a login, a search and a request for recommendations. *)
Lemma credentials_are_kept_alice :
  users (@run offline alice_asks_for_recs
           (@run offline alice_searches_dune
              (@run offline alice_logs_in fresh_world))) !! lit "alice"
  = Some (reverse (lit "pw1")).
Proof.
  apply (@credentials_are_kept offline fresh_world); [|reflexivity].
  eapply rtc_l; [apply step_run|].
  eapply rtc_l; [apply step_run|].
  eapply rtc_l; [apply step_run|].
  apply rtc_refl.
Defined.

(** [calls_are_well_formed] on the stand-in world. *)
Lemma calls_are_well_formed_alice :
  Forall well_formed_call
    (calls (@run offline alice_asks_for_recs
              (@run offline alice_searches_dune
                 (@run offline alice_logs_in fresh_world)))).
Proof.
  apply (@calls_are_well_formed offline fresh_world); [|constructor].
  eapply rtc_l; [apply step_run|].
  eapply rtc_l; [apply step_run|].
  eapply rtc_l; [apply step_run|].
  apply rtc_refl.
Defined.

(** The primary key on the stand-in world, see [primary_key_invariant]. *)
Lemma primary_key_invariant_alice :
  Sql.primary_key
    (watchlist (@run offline alice_asks_for_recs
                  (@run offline alice_searches_dune
                     (@run offline alice_logs_in fresh_world)))).
Proof.
  apply (@primary_key_invariant offline fresh_world).
  - apply (bool_decide_unpack _). vm_compute. exact I.
  - eapply rtc_l; [apply step_run|].
    eapply rtc_l; [apply step_run|].
    eapply rtc_l; [apply step_run|].
    apply rtc_refl.
Defined.

Section LoginInvariant.
Context `{Externals}.

Lemma login_is_registered_ext (w w' : world) :
  login_state w' = login_state w →
  login_is_registered w → login_is_registered w'.
Proof.
  unfold login_state, login_is_registered. intros [= -> -> ->]. done.
Qed.

Lemma login_is_registered_initialised (w : world) :
  login_is_registered w → login_is_registered (initialised w).
Proof.
  intros Hw a. rewrite initialised_authenticated, initialised_current_user.
  destruct (initialised_tables w) as (-> & _).
  destruct (session_state w !! "authenticated"%string) as [a'|] eqn:Ea;
    simpl; intros [= <-] Ht; [|done].
  destruct (Hw a' Ea Ht) as (u & -> & Hu). by exists u.
Qed.

Ltac login_frame :=
  first [ by intros ? []
        | intros []; unfold login_state; simpl;
          by rewrite ?lookup_insert_ne, ?lookup_delete_ne by done ].

Lemma login_is_registered_main_page (ui : widgets) :
  preserves login_is_registered (main_page ui).
Proof.
  unfold main_page.
  apply preserves_bind; [|intros _; apply preserves_bind; [|intros _]].
  3: apply preserves_bind; [|intros _].
  4: apply preserves_bind; [|intros _].
  5: apply preserves_bind; [|intros _].
  1-5: apply (leaves_preserves _ login_state);
         [intros ??; apply login_is_registered_ext|].
  - autounfold with script. frames login_frame.
  - autounfold with script. frames login_frame.
  - autounfold with script. frames login_frame.
  - autounfold with script. frames login_frame.
    all: apply leaves_remove_buttons_any; [|by intros ? []].
    all: intros t; autounfold with script; frames login_frame.
  - autounfold with script. frames login_frame.
  - unfold logout_ui. apply preserves_when. intros w _ a. simpl.
    rewrite !lookup_delete_ne, lookup_insert_ne, lookup_insert_eq by done.
    by intros [= <-].
Qed.

Lemma login_is_registered_run (ui : widgets) (w : world) :
  login_is_registered w → login_is_registered (run ui w).
Proof.
  intros Hw.
  apply (login_is_registered_ext (main ui (set_page [] w)).2); [done|].
  rewrite main_unfold.
  assert (Hi : login_is_registered (initialised (set_page [] w))).
  { by apply login_is_registered_initialised. }
  destruct (truthy _); [by apply login_is_registered_main_page|].
  rewrite login_ui_run. repeat case_match; try done.
  - intros a. simpl.
    rewrite lookup_insert_ne, lookup_insert_eq by done.
    intros _ _. exists (username_input ui).
    rewrite lookup_insert_eq. split; [done|]. by case_bool_decide.
  - intros a Ha Ht. destruct (Hi a Ha Ht) as (u & Hcu & Hu).
    exists u. split; [done|]. simpl.
    destruct (decide (username_input ui = u)) as [->|Hne].
    + rewrite lookup_insert_eq. by eexists.
    + by rewrite lookup_insert_ne.
Qed.

(** X13: In every state a session reaches, whoever is logged in has a record
    in [users]: [authenticated] only becomes true through a login that
    found the digest, and the record stays. *)
Theorem login_needs_a_record (w0 w : world) :
  session_state w0 = ∅ → rtc step w0 w → login_is_registered w.
Proof.
  intros Hfresh Hsteps.
  assert (Hw0 : login_is_registered w0).
  { intros a. by rewrite Hfresh, lookup_empty. }
  clear Hfresh. induction Hsteps as [w|w1 w2 w3 Hstep _ IH]; [done|].
  apply IH. destruct Hstep as [ui w1]. by apply login_is_registered_run.
Qed.

End LoginInvariant.

(** [login_needs_a_record] on the stand-in world. *)
Lemma login_needs_a_record_alice :
  login_is_registered
    (@run offline alice_searches_dune
       (@run offline alice_logs_in fresh_world)).
Proof.
  apply (@login_needs_a_record offline fresh_world); [reflexivity|].
  eapply rtc_l; [apply step_run|].
  eapply rtc_l; [apply step_run|].
  apply rtc_refl.
Defined.

(** ** Rows of the other users *)

Lemma select_rows_filter_other (v u : list N) (p : Row.t → bool)
    (rows : list Row.t) :
  (∀ r, Row.username r = v → p r = true) →
  Sql.select_rows v (List.filter p rows) = Sql.select_rows v rows.
Proof.
  intros Hp. unfold Sql.select_rows. f_equal. rewrite filter_filter_comm.
  apply filter_id_iff. intros r Hin.
  apply list_elem_of_In, filter_In in Hin as [_ Hv].
  apply Hp. unfold Sql.owned_by in Hv. by apply bool_decide_eq_true_1 in Hv.
Qed.

Lemma select_rows_delete_row_other (v u t : list N) (rows : list Row.t) :
  v ≠ u → Sql.select_rows v (Sql.delete_row u t rows) = Sql.select_rows v rows.
Proof.
  intros Hne. apply (select_rows_filter_other v u). intros r Hr.
  unfold Sql.has_key, Row.key. rewrite bool_decide_eq_false_2; [done|].
  intros [= E _]. congruence.
Qed.

Lemma select_rows_delete_rows_other (v u : list N) (rows : list Row.t) :
  v ≠ u → Sql.select_rows v (Sql.delete_rows u rows) = Sql.select_rows v rows.
Proof.
  intros Hne. apply (select_rows_filter_other v u). intros r Hr.
  unfold Sql.owned_by. rewrite bool_decide_eq_false_2; [done|]. congruence.
Qed.

Lemma select_rows_insert_other (v u t r s a : list N) (now : N)
    (rows : list Row.t) :
  v ≠ u →
  Sql.select_rows v (rows ++ [Row.mk u t r s a now]) = Sql.select_rows v rows.
Proof.
  intros Hne. unfold Sql.select_rows. f_equal. rewrite List.filter_app. simpl.
  unfold Sql.owned_by at 2. simpl.
  rewrite bool_decide_eq_false_2 by congruence. apply app_nil_r.
Qed.

Lemma preserves_then {A B} (I J : world → Prop) (m : M A) (f : A → M B) :
  preserves I m → (∀ w, I w → J w) → (∀ a w, I w → J (f a w).2) →
  ∀ w, I w → J ((m ≫= f) w).2.
Proof.
  intros Hm HIJ Hf w Hw. unfold mbind, M_bind. specialize (Hm w Hw).
  destruct (m w) as [[a|e] w1]; simpl in *; [by apply Hf|by apply HIJ].
Qed.

Section OtherRows.
Context `{Externals} (u v : list N) (rows0 : list Row.t).
Hypothesis other : v ≠ u.

Local Abbreviation kept := (own_rows_only u v rows0).

Local Ltac row_frame :=
  first [ by intros ? []
        | intros []; unfold user_and_rows; simpl;
          by rewrite ?lookup_insert_ne, ?lookup_delete_ne by done ].

Lemma own_rows_only_frame {A} (m : M A) :
  leaves user_and_rows m → preserves kept m.
Proof.
  apply leaves_preserves. unfold user_and_rows, own_rows_only.
  by intros w w' [= -> ->].
Qed.

Lemma own_rows_only_add (now : N) (i : Info.t) :
  preserves kept (add_to_watchlist now i).
Proof.
  intros w [Hu Hrows]. rewrite (add_to_watchlist_run now i u w Hu).
  destruct (existsb _ _); split; simpl; try done.
  by rewrite select_rows_insert_other.
Qed.

Lemma own_rows_only_remove (t : list N) :
  preserves kept (remove_from_watchlist t).
Proof.
  intros w [Hu Hrows]. rewrite (remove_from_watchlist_run t u w Hu).
  split; simpl; [done|]. by rewrite select_rows_delete_row_other.
Qed.

Lemma own_rows_only_clear : preserves kept clear_watchlist.
Proof.
  intros w [Hu Hrows]. rewrite (clear_watchlist_run u w Hu).
  split; simpl; [done|]. by rewrite select_rows_delete_rows_other.
Qed.

Lemma own_rows_only_search_ui (ui : widgets) :
  preserves kept (search_ui ui).
Proof.
  apply own_rows_only_frame. unfold search_ui.
  autounfold with script. frames row_frame.
Qed.

Lemma own_rows_only_movie_info_ui (ui : widgets) :
  preserves kept (movie_info_ui ui).
Proof.
  unfold movie_info_ui. apply preserves_bind; [apply preserves_view|].
  intros [[| | |i|]|]; try apply preserves_when;
    first [apply preserves_raise|apply preserves_ret|apply own_rows_only_add].
Qed.

Lemma own_rows_only_sidebar_ui (ui : widgets) :
  preserves kept (sidebar_ui ui).
Proof.
  unfold sidebar_ui.
  apply preserves_bind;
    [apply own_rows_only_frame; unfold current_user; frames row_frame|].
  intros user. apply preserves_bind; [apply preserves_get_world|]. intros w0.
  apply preserves_bind.
  { apply own_rows_only_frame. frames row_frame. }
  intros _. apply preserves_bind.
  { apply preserves_remove_buttons; [|apply own_rows_only_remove].
    intros t. apply own_rows_only_frame.
    autounfold with script. frames row_frame. }
  intros _. apply preserves_bind.
  { apply preserves_when, preserves_bind; [apply own_rows_only_clear|].
    intros _. apply preserves_raise. }
  intros _. apply preserves_when, own_rows_only_frame.
  unfold personal_recs_handler. autounfold with script. frames row_frame.
Qed.

Lemma own_rows_only_main_page (ui : widgets) (w : world) :
  kept w → Sql.select_rows v (watchlist (main_page ui w).2) = rows0.
Proof.
  set (J := λ w : world, Sql.select_rows v (watchlist w) = rows0).
  change (kept w → J (main_page ui w).2). revert w. unfold main_page.
  apply (preserves_then kept J);
    [apply own_rows_only_search_ui|by intros ? []|intros _].
  apply (preserves_then kept J); [|by intros ? []|intros _].
  { apply own_rows_only_frame. autounfold with script. frames row_frame. }
  apply (preserves_then kept J);
    [apply own_rows_only_movie_info_ui|by intros ? []|intros _].
  apply (preserves_then kept J);
    [apply own_rows_only_sidebar_ui|by intros ? []|intros _].
  apply (preserves_then kept J); [|by intros ? []|intros _].
  { apply own_rows_only_frame. autounfold with script. frames row_frame. }
  intros w' [_ <-]. unfold J. f_equal.
  assert (Hl : leaves watchlist (logout_ui ui)).
  { unfold logout_ui. autounfold with script. frames ltac:(by intros []). }
  apply Hl.
Qed.

End OtherRows.

Section Isolation.
Context `{Externals}.

(** X15: A run of the script changes no row of another user: whatever is
    clicked, with [u] as the current user the rows selected for any other
    username are the ones selected before the run. *)
Theorem run_keeps_other_rows (ui : widgets) (w : world) (u v : list N) :
  session_state w !! "current_user"%string = Some (VStr u) → v ≠ u →
  Sql.select_rows v (watchlist (run ui w))
  = Sql.select_rows v (watchlist w).
Proof.
  intros Hu Hne. rewrite run_watchlist, main_unfold.
  destruct (initialised_tables (set_page [] w)) as (_ & Hwl & _).
  destruct (truthy _).
  - apply (own_rows_only_main_page u v); [done|]. split; [|by rewrite Hwl].
    rewrite initialised_current_user. simpl. by rewrite Hu.
  - rewrite login_ui_run. repeat case_match; simpl; by rewrite Hwl.
Qed.

End Isolation.

(** [run_keeps_other_rows] on the stand-in world: [alice] clears her
    list, [bob] keeps his row. *)
Lemma run_keeps_other_rows_bob :
  Sql.select_rows (lit "bob")
    (watchlist
       (@run offline
          (Widgets LoginMode [] [] SearchByTitle [] []
                   (λ b, if b is ClearButton then true else false) 9)
          alice_world))
  = [bob_row].
Proof.
  rewrite (@run_keeps_other_rows offline _ alice_world (lit "alice")
             (lit "bob")); [reflexivity|reflexivity|].
  vm_compute. discriminate.
Defined.

(** ** The handlers one by one *)

Section Handlers.
Context `{Externals}.

Lemma get_movie_info_raises (t : list N) (w : world) (e : exn) :
  (get_movie_info t w).1 = Raises e → e = ClientError.
Proof.
  rewrite get_movie_info_run.
  destruct (tmdb_search_movie _ _) as [[|movie_id more]|]; simpl;
    [done| |by intros [= <-]].
  destruct (tmdb_movie_info _ _); simpl; [|by intros [= <-]].
  destruct (tmdb_similar_movies _ _); simpl; [|by intros [= <-]].
  pose proof (get_streaming_info_run t
    (after (TmdbSimilar movie_id)
       (after (TmdbInfo movie_id) (after (TmdbSearch t) w)))) as Hs.
  cbv zeta in Hs. rewrite Hs. clear Hs.
  destruct (serpapi_organic_results _ _); simpl; [|by intros [= <-]].
  destruct (bedrock_invoke_model _ _); simpl; [done|by intros [= <-]].
Qed.

Lemma fill_view_run (k k1 k2 : string) (v : value) (w : world) :
  (Session.set k v;; Session.pop k1;; Session.pop k2) w
  = (Returns tt,
     set_widget_keys
       (List.filter (λ t, negb (bool_decide (t = lit k2)))
          (List.filter (λ t, negb (bool_decide (t = lit k1)))
             (widget_keys w)))
       (set_session_state
          (delete k2 (delete k1 (<[k := v]> (session_state w)))) w)).
Proof. by destruct w. Qed.

Lemma bind_raises {A B} (m : M A) (f : A → M B) (w : world) (e : exn) :
  (∀ a w', ∃ b w'', f a w' = (Returns b, w'')) →
  ((m ≫= f) w).1 = Raises e →
  (m w).1 = Raises e ∧ ((m ≫= f) w).2 = (m w).2.
Proof.
  intros Hf. unfold mbind, M_bind.
  destruct (m w) as [[a|e'] w1]; simpl; [|by intros [= ->]].
  destruct (Hf a w1) as (b & w2 & ->). done.
Qed.

(** X9: When a service fails during a search by title or a request for genre
    recommendations, the handler raises the client's error and nothing is
    half done: the session, with the view it showed, and both tables are
    as before.  No other error comes out of the handler. *)
Theorem search_ui_failure (ui : widgets) (w : world) (e : exn) :
  (search_ui ui w).1 = Raises e →
  e = ClientError ∧
  session_state (search_ui ui w).2 = session_state w ∧
  users (search_ui ui w).2 = users w ∧
  watchlist (search_ui ui w).2 = watchlist w.
Proof.
  assert (Hfill : ∀ k k1 k2 v (a : unit) (w' : world), ∃ (b : unit) w'',
    (Session.set k v;; Session.pop k1;; Session.pop k2) w'
    = (Returns b, w'')).
  { intros. rewrite fill_view_run. by eauto. }
  unfold search_ui, when.
  destruct (selectbox_mode ui); (destruct (_ && _); [|by intros [=]]);
    intros Hr; apply bind_raises in Hr as [Hr ->];
    try (intros; apply Hfill; exact tt).
  - split; [by eapply get_movie_info_raises|].
    repeat split.
    + assert (Hl : leaves session_state (get_movie_info (title_input ui)))
        by (autounfold with script; leaves). apply Hl.
    + assert (Hl : leaves users (get_movie_info (title_input ui)))
        by (autounfold with script; leaves). apply Hl.
    + assert (Hl : leaves watchlist (get_movie_info (title_input ui)))
        by (autounfold with script; leaves). apply Hl.
  - rewrite ask_claude_for_genre_recs_run in *.
    destruct (bedrock_invoke_model _ _); simpl in *; [done|].
    by injection Hr as <-.
Qed.

(** X8: A click on Search with no title typed, or on Get Recs with no genre
    typed, is ignored: no request goes out and the world stays as it is,
    the view on the page included. *)
Theorem search_ui_empty_input (ui : widgets) (w : world) :
  match selectbox_mode ui with
  | SearchByTitle => title_input ui = []
  | GenreHelp => genre_input ui = []
  end →
  search_ui ui w = (Returns tt, w).
Proof.
  unfold search_ui. destruct (selectbox_mode ui); intros ->; simpl;
    by rewrite andb_false_r.
Qed.

(** X6: A search that finds no film costs one request to TMDB, stores [None]
    under [movie_info] and drops the two lists of recommendations; the
    page then shows no film, and the Add to Watchlist button, were it
    clicked, would do nothing. *)
Theorem search_finds_nothing (ui : widgets) (w : world) :
  selectbox_mode ui = SearchByTitle → clicked ui SearchButton = true →
  title_input ui ≠ [] →
  tmdb_search_movie (calls w) (title_input ui) = Some [] →
  ∃ w', search_ui ui w = (Returns tt, w') ∧
        calls w' = calls w ++ [TmdbSearch (title_input ui)] ∧
        session_state w' !! "movie_info"%string = Some VNone ∧
        live w' = ["movie_info"%string] ∧
        watchlist w' = watchlist w ∧
        movie_info_ui ui w' = (Returns tt, w').
Proof.
  intros Hmode Hclick Htitle Hnone. unfold search_ui.
  rewrite Hmode, Hclick. simpl. rewrite bool_decide_eq_false_2 by done.
  simpl. unfold mbind at 1, M_bind at 1.
  rewrite get_movie_info_run, Hnone, fill_view_run. eexists.
  split; [done|]. simpl. split; [done|].
  assert (Hm : delete "personal_recs"%string
                 (delete "claude_recs"%string
                    (<["movie_info"%string := VNone]> (session_state w)))
               !! "movie_info"%string = Some VNone).
  { by rewrite !lookup_delete_ne, lookup_insert_eq. }
  split; [done|]. split; [|split; [done|]].
  - unfold live, views. simpl. rewrite Hm.
    rewrite (lookup_delete_ne _ "personal_recs"%string "claude_recs"%string)
      by done.
    by rewrite !lookup_delete_eq.
  - unfold movie_info_ui, mbind, M_bind, view, session_lookup. simpl.
    by rewrite Hm.
Qed.

Lemma remove_buttons_run (ui : widgets) (rows : list Row.t) (w : world)
    (u t : list N) :
  session_state w !! "current_user"%string = Some (VStr u) →
  (∀ t', clicked ui (RemoveButton t') = true ↔ t' = t) →
  ∃ w',
    remove_buttons ui rows w
    = (if existsb (λ r, bool_decide (Row.title r = t)) rows
       then Raises RerunException else Returns tt, w') ∧
    watchlist w'
    = (if existsb (λ r, bool_decide (Row.title r = t)) rows
       then Sql.delete_row u t (watchlist w) else watchlist w) ∧
    users w' = users w ∧ session_state w' = session_state w ∧
    calls w' = calls w ∧ page w' = page w.
Proof.
  intros Hu Hclick. revert w Hu.
  induction rows as [|r rows IH]; intros w Hu; simpl; [by eexists|].
  unfold mbind at 1, M_bind at 1, st_button_key.
  unfold mbind at 1, M_bind at 1, modify, mret at 1, M_ret at 1.
  destruct (clicked ui (RemoveButton (Row.title r))) eqn:E; simpl.
  - apply Hclick in E. rewrite bool_decide_eq_true_2 by done. simpl.
    unfold mbind, M_bind.
    rewrite (remove_from_watchlist_run _ u (register_widget (Row.title r) w))
      by done.
    eexists. split; [done|]. by rewrite E.
  - rewrite bool_decide_eq_false_2.
    2: { intros Ht. apply Hclick in Ht. congruence. }
    simpl. unfold mbind at 1, M_bind at 1, mret, M_ret.
    destruct (IH (register_widget (Row.title r) w) Hu) as (w' & -> & Hw').
    by exists w'.
Qed.

(** X18: The Remove button of a title on the list of the current user deletes
    the rows with that user and that title, keeps every other row, and
    ends the run with [st.rerun()] before the buttons below are looked
    at. *)
Theorem remove_button_removes_that_title (ui : widgets) (w : world)
    (u t : list N) :
  session_state w !! "current_user"%string = Some (VStr u) →
  (∀ t', clicked ui (RemoveButton t') = true ↔ t' = t) →
  t ∈ Row.title <$> Sql.select_rows u (watchlist w) →
  ∃ w', sidebar_ui ui w = (Raises RerunException, w') ∧
        (∀ r, r ∈ watchlist w' ↔ r ∈ watchlist w ∧ Row.key r ≠ (u, t)) ∧
        users w' = users w ∧ session_state w' = session_state w ∧
        calls w' = calls w.
Proof.
  intros Hu Hclick Hin.
  assert (Hne : Sql.select_rows u (watchlist w) ≠ []).
  { intros E. rewrite E in Hin. by apply elem_of_nil in Hin. }
  assert (Hex : existsb (λ r, bool_decide (Row.title r = t))
                  (Sql.select_rows u (watchlist w)) = true).
  { apply list_elem_of_fmap in Hin as (r & Ht & Hr).
    apply existsb_exists. exists r. split; [by apply list_elem_of_In|].
    by rewrite bool_decide_eq_true_2. }
  unfold sidebar_ui, mbind, M_bind, get_world.
  rewrite (current_user_run u w Hu). simpl.
  rewrite bool_decide_eq_false_2 by done. simpl.
  destruct (remove_buttons_run ui (Sql.select_rows u (watchlist w)) w u t
              Hu Hclick) as (w' & -> & Hwl & Hrest).
  rewrite Hex in *. exists w'. split; [done|]. split; [|tauto].
  intros x. rewrite Hwl. unfold Sql.delete_row.
  rewrite list_elem_of_In, filter_In, <- list_elem_of_In.
  unfold Sql.has_key. by rewrite negb_true_iff, bool_decide_eq_false.
Qed.

(** X20: [is_in_watchlist] agrees with the list in the sidebar: it is true
    exactly for the titles among the rows selected for the user, and it
    leaves the world as it is. *)
Theorem is_in_watchlist_agrees_with_list (u t : list N) (w : world) :
  is_in_watchlist u t w
  = (Returns (bool_decide (t ∈ Row.title <$> Sql.select_rows u (watchlist w))),
     w).
Proof.
  rewrite is_in_watchlist_run. f_equal. f_equal.
  apply eq_true_iff_eq. rewrite existsb_has_key, bool_decide_eq_true.
  rewrite list_elem_of_fmap. unfold Sql.select_rows, Row.key. split.
  - intros (r & Hin & [= Hu Ht]). exists r. split; [done|].
    apply elem_of_index_order.
    apply list_elem_of_In, filter_In. split; [by apply list_elem_of_In|].
    unfold Sql.owned_by. by rewrite bool_decide_eq_true_2.
  - intros (r & -> & Hin). rewrite elem_of_index_order in Hin.
    apply list_elem_of_In, filter_In in Hin as [Hin Ho].
    unfold Sql.owned_by in Ho. apply bool_decide_eq_true_1 in Ho.
    exists r. split; [by apply list_elem_of_In|]. by rewrite Ho.
Qed.

(** X21: Asking for personal recommendations with nothing on the watchlist
    sends no request: the empty list is stored under [personal_recs],
    which becomes the only view, and the run ends with [st.rerun()]. *)
Theorem personal_recs_on_empty_list (u : list N) (w : world) :
  session_state w !! "current_user"%string = Some (VStr u) →
  Sql.select_rows u (watchlist w) = [] →
  ∃ w', personal_recs_handler w = (Raises RerunException, w') ∧
        session_state w' !! "personal_recs"%string = Some (VList []) ∧
        live w' = ["personal_recs"%string] ∧
        calls w' = calls w ∧ watchlist w' = watchlist w ∧ users w' = users w.
Proof.
  intros Hu Hrows. unfold personal_recs_handler.
  unfold mbind at 1, M_bind at 1. rewrite (current_user_run u w Hu).
  unfold mbind at 1, M_bind at 1.
  unfold get_claude_personal_recommendations at 1.
  unfold mbind at 1, M_bind at 1, get_world. rewrite Hrows. simpl fmap.
  unfold mret at 1, M_ret at 1. eexists. split; [by destruct w|]. simpl.
  assert (Hp : delete "claude_recs"%string
                 (delete "movie_info"%string
                    (<["personal_recs"%string := VList []]> (session_state w)))
               !! "personal_recs"%string = Some (VList [])).
  { by rewrite !lookup_delete_ne, lookup_insert_eq. }
  split; [done|]. split; [|done].
  unfold live, views. simpl. rewrite Hp.
  rewrite (lookup_delete_ne _ "claude_recs"%string "movie_info"%string)
    by done.
  by rewrite !lookup_delete_eq.
Qed.

(** X19: After a click on Logout nobody is logged in, [current_user] is the
    empty string and no view is left; the tables are as before, and the
    next run, whatever is clicked in it, leaves [watchlist] alone and
    sends no request. *)
Theorem logout_then_run (ui ui' : widgets) (w : world) :
  clicked ui LogoutButton = true →
  ∃ w1, logout_ui ui w = (Raises RerunException, w1) ∧
        logged_out w1 ∧
        session_state w1 !! "current_user"%string = Some (VStr []) ∧
        live w1 = [] ∧
        users w1 = users w ∧ watchlist w1 = watchlist w ∧
        watchlist (run ui' w1) = watchlist w ∧ calls (run ui' w1) = calls w.
Proof.
  intros Hclick. unfold logout_ui. rewrite Hclick. eexists.
  split; [by destruct w|]. simpl.
  assert (Hout : ∀ a,
    delete "personal_recs"%string
      (delete "claude_recs"%string
         (delete "movie_info"%string
            (<["current_user"%string := VStr []]>
               (<["authenticated"%string := VBool false]> (session_state w)))))
    !! "authenticated"%string = Some a → truthy a = false).
  { intros a.
    rewrite !lookup_delete_ne, lookup_insert_ne, lookup_insert_eq by done.
    by intros [= <-]. }
  split; [exact Hout|]. split.
  { by rewrite !lookup_delete_ne, lookup_insert_eq. }
  split.
  { unfold live, views. simpl.
    rewrite (lookup_delete_ne _ "personal_recs"%string "claude_recs"%string),
      (lookup_delete_ne _ "personal_recs"%string "movie_info"%string),
      (lookup_delete_ne _ "claude_recs"%string "movie_info"%string) by done.
    by rewrite !lookup_delete_eq. }
  split; [done|]. split; [done|].
  unfold run. rewrite main_unfold.
  rewrite logged_out_default by exact Hout. rewrite login_ui_run.
  match goal with
  | |- context [initialised ?x] =>
      destruct (initialised_tables x) as (_ & Hwl & Hc & _)
  end.
  repeat case_match; simpl; by rewrite Hwl, Hc.
Qed.

End Handlers.

(** [search_ui_failure] where no service can be reached. *)
Lemma search_ui_failure_unreachable :
  session_state (@search_ui unreachable alice_searches_dune alice_world).2
  = session_state alice_world.
Proof.
  apply (@search_ui_failure unreachable alice_searches_dune alice_world
           ClientError).
  reflexivity.
Defined.

(** [search_ui_empty_input]: a click on Search, nothing typed. *)
Lemma search_ui_empty_input_alice :
  @search_ui offline
    (Widgets LoginMode [] [] SearchByTitle [] [] (only SearchButton) 6)
    alice_world
  = (Returns tt, alice_world).
Proof.
  apply (@search_ui_empty_input offline
           (Widgets LoginMode [] [] SearchByTitle [] [] (only SearchButton) 6)).
  reflexivity.
Defined.

(** [search_finds_nothing] where TMDB knows no film. *)
Lemma search_finds_nothing_alice :
  ∃ w', @search_ui no_such_film alice_searches_dune alice_world
        = (Returns tt, w') ∧
        session_state w' !! "movie_info"%string = Some VNone.
Proof.
  destruct (@search_finds_nothing no_such_film alice_searches_dune
              alice_world) as (w' & Hrun & _ & Hnone & _).
  - reflexivity.
  - reflexivity.
  - vm_compute. discriminate.
  - reflexivity.
  - by exists w'.
Defined.

(** [remove_button_removes_that_title]: [alice] removes [Dune]. *)
Lemma remove_button_removes_that_title_alice :
  ∃ w', @sidebar_ui offline
          (Widgets LoginMode [] [] SearchByTitle [] []
                   (only (RemoveButton (lit "Dune"))) 7)
          alice_world
        = (Raises RerunException, w') ∧
        bob_row ∈ watchlist w' ∧ alice_row ∉ watchlist w'.
Proof.
  destruct (@remove_button_removes_that_title offline
              (Widgets LoginMode [] [] SearchByTitle [] []
                       (only (RemoveButton (lit "Dune"))) 7)
              alice_world (lit "alice") (lit "Dune"))
    as (w' & Hrun & Hrows & _).
  - reflexivity.
  - intros t'. simpl. rewrite bool_decide_eq_true. split; by intros ->.
  - apply list_elem_of_In. vm_compute. tauto.
  - exists w'. split; [exact Hrun|]. rewrite !Hrows. split.
    + split; [|vm_compute; discriminate].
      apply list_elem_of_In. vm_compute. tauto.
    + intros [_ Hkey]. by apply Hkey.
Defined.

(** [personal_recs_on_empty_list]: [carol] is logged in and has saved
    nothing. *)
Lemma personal_recs_on_empty_list_carol :
  ∃ w', @personal_recs_handler offline
          (set_session_state
             {[ "current_user"%string := VStr (lit "carol") ]} alice_world)
        = (Raises RerunException, w') ∧
        session_state w' !! "personal_recs"%string = Some (VList []).
Proof.
  destruct (@personal_recs_on_empty_list offline (lit "carol")
              (set_session_state
                 {[ "current_user"%string := VStr (lit "carol") ]} alice_world))
    as (w' & Hrun & Hrecs & _).
  - reflexivity.
  - reflexivity.
  - by exists w'.
Defined.

(** [logout_then_run]: [alice] logs out, then someone clicks Clear. *)
Lemma logout_then_run_alice :
  ∃ w1, logout_ui
          (Widgets LoginMode [] [] SearchByTitle [] [] (only LogoutButton) 8)
          alice_world
        = (Raises RerunException, w1) ∧
        watchlist
          (@run offline
             (Widgets LoginMode [] [] SearchByTitle [] [] (only ClearButton) 9)
             w1)
        = watchlist alice_world.
Proof.
  destruct (@logout_then_run offline
              (Widgets LoginMode [] [] SearchByTitle [] [] (only LogoutButton) 8)
              (Widgets LoginMode [] [] SearchByTitle [] [] (only ClearButton) 9)
              alice_world eq_refl)
    as (w1 & Hrun & _ & _ & _ & _ & _ & Hwl & _).
  by exists w1.
Defined.

(** ** The key of a Remove button *)

Lemma initialised_widgets (w : world) :
  widget_keys (initialised w) = widget_keys w.
Proof.
  unfold initialised, Session.init, Session.get, Session.set, modify,
    mbind, M_bind, mret, M_ret.
  destruct (session_state w !! "authenticated"%string); simpl;
    by case_match.
Qed.

Lemma buttons_drawn_fields (rows : list Row.t) (w : world) :
  users (buttons_drawn rows w) = users w ∧
  watchlist (buttons_drawn rows w) = watchlist w ∧
  session_state (buttons_drawn rows w) = session_state w ∧
  calls (buttons_drawn rows w) = calls w ∧
  page (buttons_drawn rows w) = page w.
Proof.
  revert w. induction rows as [|r rows IH]; intros w; simpl; [done|].
  destruct (IH (register_widget (Row.title r) w)) as (-> & -> & -> & -> & ->).
  done.
Qed.

Lemma register_widget_key (k : list N) (w : world) :
  k ∈ widget_keys (register_widget k w).
Proof. simpl. case_bool_decide; [done|]. apply elem_of_cons. by left. Qed.

Lemma register_widget_keeps (k k' : list N) (w : world) :
  k ∈ widget_keys w → k ∈ widget_keys (register_widget k' w).
Proof.
  intros Hk. simpl. case_bool_decide; [done|]. apply elem_of_cons. by right.
Qed.

Lemma buttons_drawn_keeps (rows : list Row.t) (k : list N) (w : world) :
  k ∈ widget_keys w → k ∈ widget_keys (buttons_drawn rows w).
Proof.
  revert w. induction rows as [|r rows IH]; intros w Hk; simpl; [done|].
  by apply IH, register_widget_keeps.
Qed.

Lemma buttons_drawn_keys (rows : list Row.t) (t : list N) (w : world) :
  t ∈ Row.title <$> rows → t ∈ widget_keys (buttons_drawn rows w).
Proof.
  revert w. induction rows as [|r rows IH]; intros w; simpl.
  - by intros ?%elem_of_nil.
  - intros [->|Hin]%elem_of_cons; [|by apply IH].
    apply buttons_drawn_keeps, register_widget_key.
Qed.

Lemma select_rows_has_key (u t : list N) (rows : list Row.t) :
  existsb (Sql.has_key u t) rows = true →
  t ∈ Row.title <$> Sql.select_rows u rows.
Proof.
  intros (r & Hin & Hk)%existsb_has_key. apply list_elem_of_fmap.
  injection Hk as Hu Ht. exists r. split; [done|].
  apply elem_of_index_order, list_elem_of_In, filter_In.
  split; [by apply list_elem_of_In|].
  unfold Sql.owned_by. by rewrite bool_decide_eq_true_2.
Qed.

Section RemoveKey.
Context `{Externals}.

Lemma remove_buttons_idle (ui : widgets) (rows : list Row.t) (w : world) :
  (∀ t, clicked ui (RemoveButton t) = false) →
  remove_buttons ui rows w = (Returns tt, buttons_drawn rows w).
Proof.
  intros Hidle. revert w.
  induction rows as [|r rows IH]; intros w; simpl; [done|].
  unfold st_button_key, mbind, M_bind, modify, mret, M_ret.
  rewrite Hidle. simpl. apply IH.
Qed.

(** C4: a film that TMDB calls [personal_recs] brings a second view into
    the session.  With it as the search result, the only view of the
    session, a click on Add to Watchlist saves it; the sidebar then draws
    its Remove button with [key="personal_recs"], so line 279 finds the key
    and line 281 iterates over the value of a button: the run ends with
    [TypeError], and both [movie_info] and [personal_recs] are keys of
    [st.session_state] after it. *)
Theorem remove_button_key_is_a_view (ui : widgets) (w : world) (u : list N)
    (i : Info.t) :
  logged_in u w →
  session_state w !! "movie_info"%string = Some (VInfo i) →
  ¬ in_session_state "claude_recs" w →
  ¬ in_session_state "personal_recs" w →
  Info.title i = lit "personal_recs" →
  selectbox_mode ui = SearchByTitle →
  (∀ b, clicked ui b = true ↔ b = AddButton) →
  (main ui (set_page [] w)).1 = Raises TypeError ∧
  in_session_state "movie_info" (run ui w) ∧
  in_session_state "personal_recs" (run ui w) ∧
  session_lookup ui "personal_recs" (run ui w) = Some (VBool false) ∧
  lit "personal_recs" ∈ Row.title <$> Sql.select_rows u (watchlist (run ui w)).
Proof.
  intros [Ha Hu] Hm Hc Hp Ht Hmode Hclick.
  assert (Hidle : ∀ b, b ≠ AddButton → clicked ui b = false).
  { intros b Hb. destruct (clicked ui b) eqn:E; [|done]. by apply Hclick in E. }
  assert (Hadd : clicked ui AddButton = true) by by apply Hclick.
  unfold run. rewrite main_unfold.
  change (session_state (set_page [] w)) with (session_state w).
  rewrite Ha. simpl truthy. cbv iota.
  set (w0 := initialised (set_page [] w)).
  assert (H0u : session_state w0 !! "current_user"%string = Some (VStr u)).
  { unfold w0. rewrite initialised_current_user. simpl. by rewrite Hu. }
  assert (H0m : session_state w0 !! "movie_info"%string = Some (VInfo i)).
  { unfold w0. by rewrite initialised_other. }
  assert (H0p : session_state w0 !! "personal_recs"%string = None).
  { unfold w0. rewrite initialised_other by done. simpl.
    destruct (session_state w !! "personal_recs"%string) eqn:E; [|done].
    destruct Hp. left. by rewrite E. }
  assert (Hrun : ∃ w2,
    main_page ui w0 = (Raises TypeError, w2) ∧
    session_state w2 = session_state w0 ∧
    lit "personal_recs" ∈ widget_keys w2 ∧
    lit "personal_recs" ∈ Row.title <$> Sql.select_rows u (watchlist w2)).
  { unfold main_page.
    assert (Hs : search_ui ui w0 = (Returns tt, w0)).
    { unfold search_ui. by rewrite Hmode, (Hidle SearchButton). }
    unfold mbind at 1, M_bind at 1. rewrite Hs.
    assert (Hcl : claude_recs_ui ui w0 = (Returns tt, w0)).
    { unfold claude_recs_ui, mbind, M_bind, view. rewrite Hmode.
      by destruct (session_lookup ui "claude_recs" w0). }
    unfold mbind at 1, M_bind at 1. rewrite Hcl.
    assert (Hmi : ∃ w1,
      movie_info_ui ui w0 = (Returns tt, w1) ∧
      session_state w1 = session_state w0 ∧
      existsb (Sql.has_key u (lit "personal_recs")) (watchlist w1) = true).
    { unfold movie_info_ui, mbind, M_bind, view, session_lookup.
      rewrite H0m, Hadd. simpl.
      rewrite (add_to_watchlist_run (now ui) i u w0 H0u), Ht.
      destruct (existsb _ (watchlist w0)) eqn:E; eexists; split; try done.
      split; [done|]. simpl. rewrite existsb_app. simpl.
      unfold Sql.has_key at 2, Row.key. simpl.
      rewrite bool_decide_eq_true_2 by done. apply orb_true_r. }
    destruct Hmi as (w1 & Hmi & Hs1 & Hrow).
    unfold mbind at 1, M_bind at 1. rewrite Hmi.
    apply select_rows_has_key in Hrow.
    assert (Hside : sidebar_ui ui w1
      = (Returns tt, buttons_drawn (Sql.select_rows u (watchlist w1)) w1)).
    { unfold sidebar_ui, mbind, M_bind, get_world.
      rewrite (current_user_run u w1) by by rewrite Hs1.
      rewrite bool_decide_eq_false_2.
      2: { intros E. rewrite E in Hrow. by apply elem_of_nil in Hrow. }
      simpl. rewrite remove_buttons_idle by (intros t; by apply Hidle).
      by rewrite (Hidle ClearButton), (Hidle PersonalRecsButton). }
    unfold mbind at 1, M_bind at 1. rewrite Hside.
    set (w2 := buttons_drawn _ w1).
    destruct (buttons_drawn_fields (Sql.select_rows u (watchlist w1)) w1)
      as (_ & Hwl & Hss & _).
    fold w2 in Hwl, Hss.
    assert (Hkey : lit "personal_recs" ∈ widget_keys w2).
    { by apply buttons_drawn_keys. }
    exists w2. split; [|split; [by rewrite Hss|split; [done|by rewrite Hwl]]].
    unfold personal_recs_ui, mbind, M_bind, view, session_lookup.
    rewrite Hss, Hs1, H0p.
    rewrite bool_decide_eq_true_2 by done.
    by rewrite (Hidle (RemoveButton _)). }
  destruct Hrun as (w2 & -> & Hss & Hkey & Hrow).
  split; [done|]. split; [|split; [|split; [|done]]].
  - left. simpl. by rewrite Hss, H0m.
  - by right.
  - unfold session_lookup. simpl. rewrite Hss, H0p.
    rewrite bool_decide_eq_true_2 by done.
    by rewrite (Hidle (RemoveButton _)).
Qed.

End RemoveKey.

(** [remove_button_key_is_a_view] in a session that started empty:
    [alice] logs in, searches the film that TMDB calls [personal_recs] and
    clicks Add to Watchlist. *)
Lemma remove_button_key_is_a_view_alice :
  let w := @run odd_title alice_searches_personal_recs
             (@run odd_title alice_logs_in fresh_world) in
  live w = ["movie_info"%string] ∧
  widget_keys w = [lit "Dune"] ∧
  (@main odd_title alice_adds (set_page [] w)).1 = Raises TypeError ∧
  in_session_state "movie_info" (@run odd_title alice_adds w) ∧
  in_session_state "personal_recs" (@run odd_title alice_adds w).
Proof.
  intros w.
  destruct (@remove_button_key_is_a_view odd_title alice_adds w (lit "alice")
              (Info.mk (lit "personal_recs") (lit "No summary available.")
                 (lit "6.1") None [] [] [lit "Not found"]))
    as (Hraises & Hmovie & Hrecs & _).
  - split; by vm_compute.
  - by vm_compute.
  - intros [[v Hv]|Hk]; [by vm_compute in Hv|].
    apply list_elem_of_In in Hk. vm_compute in Hk. intuition discriminate.
  - intros [[v Hv]|Hk]; [by vm_compute in Hv|].
    apply list_elem_of_In in Hk. vm_compute in Hk. intuition discriminate.
  - reflexivity.
  - reflexivity.
  - intros b. destruct b; simpl; split; try done.
  - split; [by vm_compute|]. split; [by vm_compute|]. done.
Defined.
